(** * Diversify.ai browser extension: extraction, relay and skill matching

    A shallow embedding of the extension's three scripts (the popup, the
    content script and the background service worker) together with the
    properties of the extraction-and-reconciliation pipeline.

    Conventions of the embedding.
    - A JavaScript string is the sequence of its code units, restricted to
      code units below 256 (the Latin-1 range); [toLowerCase], [trim],
      [includes] and [split] are written out for that range.
    - A JavaScript array of strings is a [list string].
    - Platform callbacks ([chrome.tabs.query], [chrome.runtime.sendMessage],
      [chrome.storage.local.get], [fetch]) are modelled by their outcome,
      supplied by a [World] record; each callback fires once. *)

From Stdlib Require Import ZArith NArith Ascii String List Bool Lia DecimalString.
From stdpp Require Import base decidable option list strings.

Local Open Scope Z_scope.
Set Warnings "-register-all".

(** ** JavaScript strings *)

Module JsString.

Definition code (c : ascii) : N := N_of_ascii c.

(** [String.prototype.toLowerCase] on one code unit of the Latin-1 range:
    A-Z and the accented capitals 0xC0-0xDE (the multiplication sign 0xD7
    apart) move up by 0x20, everything else is unchanged. *)
Definition lower_char (c : ascii) : ascii :=
  let n := code c in
  if ((65 <=? n) && (n <=? 90) ||
      (192 <=? n) && (n <=? 222) && negb (n =? 215))%N
  then ascii_of_N (n + 32) else c.

Fixpoint toLowerCase (s : string) : string :=
  match s with
  | EmptyString => EmptyString
  | String c s' => String (lower_char c) (toLowerCase s')
  end.

(** White space and line terminators of ECMAScript below 256:
    TAB, LF, VT, FF, CR, SP and NBSP. *)
Definition is_white (c : ascii) : bool :=
  let n := code c in
  ((9 <=? n) && (n <=? 13) || (n =? 32) || (n =? 160))%N.

Fixpoint trimStart (s : string) : string :=
  match s with
  | EmptyString => EmptyString
  | String c s' => if is_white c then trimStart s' else s
  end.

Fixpoint trimEnd (s : string) : string :=
  match s with
  | EmptyString => EmptyString
  | String c s' =>
      match trimEnd s' with
      | EmptyString => if is_white c then EmptyString else String c EmptyString
      | t => String c t
      end
  end.

(** [String.prototype.trim] *)
Definition trim (s : string) : string := trimEnd (trimStart s).

(** [s.startsWith(t)] *)
Fixpoint startsWith (s t : string) {struct t} : bool :=
  match t, s with
  | EmptyString, _ => true
  | String _ _, EmptyString => false
  | String a t', String b s' => Ascii.eqb a b && startsWith s' t'
  end.

(** [s.includes(t)]: [t] occurs in [s] at some position. *)
Fixpoint includes (s t : string) : bool :=
  startsWith s t ||
  match s with
  | EmptyString => false
  | String _ s' => includes s' t
  end.

(** [s.split(sep)] for a one-character separator. *)
Fixpoint split (sep : ascii) (s : string) : list string :=
  match s with
  | EmptyString => [EmptyString]
  | String c s' =>
      if Ascii.eqb c sep then EmptyString :: split sep s'
      else match split sep s' with
           | p :: ps => String c p :: ps
           | [] => [String c EmptyString]
           end
  end.

(** [parts.join(sep)] *)
Fixpoint join (sep : string) (parts : list string) : string :=
  match parts with
  | [] => EmptyString
  | [p] => p
  | p :: ps => p +:+ sep +:+ join sep ps
  end.

(** The empty string is the only falsy string. *)
Definition nonEmpty (s : string) : bool :=
  match s with EmptyString => false | String _ _ => true end.

(** [arr.includes(x)] on an array of strings. *)
Definition arrayIncludes (arr : list string) (x : string) : bool :=
  existsb (String.eqb x) arr.

Definition LF : string := String "010"%char EmptyString.

(** [t] occurs in [s] as a contiguous substring. *)
Definition is_substring (t s : string) : Prop :=
  ∃ pre post, s = pre +:+ t +:+ post.

Definition is_lowercase (s : string) : Prop := toLowerCase s = s.

(** A string that does not begin with white space. *)
Definition startsClean (s : string) : Prop :=
  match s with
  | EmptyString => True
  | String c _ => is_white c = false
  end.

End JsString.

Import JsString.

(** ** Skill matching (popup, analyze handler) *)

Module MatchEngine.

(** [analysisData.skills.map(s => s.toLowerCase())] *)
Definition jobSkillsOf (skills : list string) : list string :=
  map toLowerCase skills.

(** [userSkills.filter(skill =>
      jobSkills.some(jobSkill => jobSkill.includes(skill.toLowerCase())))] *)
Definition matchingSkills (userSkills jobSkills : list string) : list string :=
  List.filter
    (fun skill =>
       existsb (fun jobSkill => includes jobSkill (toLowerCase skill)) jobSkills)
    userSkills.

(** [jobSkills.filter(skill =>
      !userSkills.some(userSkill =>
         skill.toLowerCase().includes(userSkill.toLowerCase())))] *)
Definition missingSkills (userSkills jobSkills : list string) : list string :=
  List.filter
    (fun skill =>
       negb (existsb
               (fun userSkill =>
                  includes (toLowerCase skill) (toLowerCase userSkill))
               userSkills))
    jobSkills.

Record MatchReport := {
  reportMatching : list string;
  reportMissing : list string
}.

(** The categorisation step as one function of the stored profile and of
    the skills the service returned. *)
Definition computeMatch (userSkills skills : list string) : MatchReport :=
  let jobSkills := jobSkillsOf skills in
  {| reportMatching := matchingSkills userSkills jobSkills;
     reportMissing := missingSkills userSkills jobSkills |}.

End MatchEngine.

(** ** JSON values, as [response.json()] produces them *)

Module Json.

(** Numbers are the integers; fractional numbers are outside the model. *)
Inductive Json :=
| JNull
| JBool (b : bool)
| JNum (n : Z)
| JStr (s : string)
| JArr (items : list Json)
| JObj (fields : list (string * Json)).

(** A later duplicate key overrides an earlier one, as in [JSON.parse]. *)
Fixpoint lookupField (key : string) (fields : list (string * Json)) : option Json :=
  match fields with
  | [] => None
  | (k, v) :: rest =>
      match lookupField key rest with
      | Some w => Some w
      | None => if String.eqb k key then Some v else None
      end
  end.

(** [value.key] for a key that no primitive wrapper and no array defines;
    [None] is [undefined]. *)
Definition getProp (value : Json) (key : string) : option Json :=
  match value with
  | JObj fields => lookupField key fields
  | _ => None
  end.

(** JavaScript truthiness; [None] is [undefined]. *)
Definition truthy (v : option Json) : bool :=
  match v with
  | None | Some JNull => false
  | Some (JBool b) => b
  | Some (JNum n) => negb (n =? 0)
  | Some (JStr s) => nonEmpty s
  | Some (JArr _) | Some (JObj _) => true
  end.

Definition isArray (v : option Json) : bool :=
  match v with Some (JArr _) => true | _ => false end.

(** [a || b] *)
Definition orElse (a : option Json) (b : Json) : Json :=
  match a with
  | Some v => if truthy a then v else b
  | None => b
  end.

End Json.

Import Json.

(** ** Documents *)

Module Dom.

Inductive Node :=
| TextNode (data : string)
| Element (tag : string) (childNodes : list Node).

(** [node.textContent]: the text of all descendants, in document order. *)
Fixpoint textContent (n : Node) : string :=
  match n with
  | TextNode data => data
  | Element _ cs => fold_right (fun c acc => textContent c +:+ acc) EmptyString cs
  end.

Definition children (n : Node) : list Node :=
  match n with
  | TextNode _ => []
  | Element _ cs => cs
  end.

(** All nodes below [n], in document order. *)
Fixpoint descendants (n : Node) : list Node :=
  match n with
  | TextNode _ => []
  | Element _ cs => flat_map (fun c => c :: descendants c) cs
  end.

(** The selector list [p, li, div] on one node; tags are lower-case. *)
Definition matchesPLiDiv (n : Node) : bool :=
  match n with
  | TextNode _ => false
  | Element tag _ => arrayIncludes ["p"; "li"; "div"] tag
  end.

(** [container.querySelectorAll('p, li, div')] *)
Definition querySelectorAllPLiDiv (container : Node) : list Node :=
  List.filter matchesPLiDiv (descendants container).

(** [n] lies below [container]: it is a child of it, or lies below one of
    its children. *)
Inductive descendantOf : Node -> Node -> Prop :=
| descendant_child (tag : string) (cs : list Node) (c : Node) :
    c ∈ cs -> descendantOf c (Element tag cs)
| descendant_deeper (tag : string) (cs : list Node) (c n : Node) :
    c ∈ cs -> descendantOf n c -> descendantOf n (Element tag cs).

(** A live document: its host name and, for each selector, the first
    element that matches it. *)
Record Document := {
  hostname : string;
  querySelector : string -> option Node
}.

End Dom.

Import Dom.

(** ** Messages, events and the effect monad *)

Module Runtime.

Record JobDetails := {
  description : string;
  company : string;
  title : string
}.

(** The body of [POST /analyze]: [{...request.data, skills}]. *)
Record AnalysisRequest := {
  requestDetails : JobDetails;
  requestSkills : list string
}.

(** The final response [{ success?, data?, error? }]; [None] is a field
    that is not there. *)
Record Response := {
  success : option bool;
  data : option Json;
  error : option string
}.

Inductive Context := ContentScript | Background.

Inductive SkillStatus := Match | Missing.

(** What a run does to its surroundings, in the order it does it. *)
Inductive Event :=
| ClearError
| ShowError (message : string)
| TabsQuery
| TabsSendMessage (tab : Z)
| QuerySelector (selector : string)
| QuerySelectorAll (selector : string)
| RuntimeSendMessage (details : JobDetails)
| StorageGet
| Fetch (request : AnalysisRequest)
| SendResponse (sender : Context) (response : Response)
| SetMatchPercentage (value : Json)
| SetSkillsList (items : list (SkillStatus * string))
| SetInclusionNumber (score : Z)
| SetInclusionStars (filled empty : Z)
| SetProgramsList (programs : list Json).

(** Exceptions, each with its [message]. *)
Inductive JsError :=
| Error (message : string)
| TypeError (message : string)
| RangeError (message : string)
| SyntaxError (message : string).

Definition errorMessage (e : JsError) : string :=
  match e with
  | Error m | TypeError m | RangeError m | SyntaxError m => m
  end.

(** A computation: the events it emitted and either its value or the
    exception it threw. *)
Record Js (A : Type) := MkJs {
  trace : list Event;
  outcome : JsError + A
}.
Arguments MkJs {A} _ _.
Arguments trace {A} _.
Arguments outcome {A} _.

Definition ret {A} (a : A) : Js A := MkJs [] (inr a).

Definition throw {A} (e : JsError) : Js A := MkJs [] (inl e).

Definition bind {A B} (m : Js A) (k : A -> Js B) : Js B :=
  match outcome m with
  | inl e => MkJs (trace m) (inl e)
  | inr a => MkJs (trace m ++ trace (k a)) (outcome (k a))
  end.

Definition emit (e : Event) : Js unit := MkJs [e] (inr tt).

(** [try { body } catch (error) { handler }] *)
Definition tryCatch {A} (body : Js A) (handler : JsError -> Js A) : Js A :=
  match outcome body with
  | inl e => MkJs (trace body ++ trace (handler e)) (outcome (handler e))
  | inr a => body
  end.

Notation "'let!' x ':=' m 'in' k" := (bind m (fun x => k))
  (at level 10, x name, m at level 100, k at level 200).
Notation "'do!' m 'in' k" := (bind m (fun _ => k))
  (at level 10, m at level 100, k at level 200).

(** A settled promise. *)
Inductive Promise (A : Type) :=
| Fulfilled (value : A)
| Rejected (reason : JsError).
Arguments Fulfilled {A} _.
Arguments Rejected {A} _.

(** [p.then(onFulfilled)]: a rejection passes through, an exception of
    the handler rejects the new promise. *)
Definition then_ {A B} (p : Js (Promise A)) (onFulfilled : A -> Js B)
  : Js (Promise B) :=
  let! r := p in
  match r with
  | Fulfilled v =>
      let h := onFulfilled v in
      match outcome h with
      | inl e => MkJs (trace h) (inr (Rejected e))
      | inr b => MkJs (trace h) (inr (Fulfilled b))
      end
  | Rejected e => ret (Rejected e)
  end.

(** [p.then(f)] for an [f] that returns a promise, which is adopted. *)
Definition thenPromise {A B} (p : Js (Promise A)) (f : A -> Promise B)
  : Js (Promise B) :=
  let! r := p in
  match r with
  | Fulfilled v => ret (f v)
  | Rejected e => ret (Rejected e)
  end.

(** [p.catch(onRejected)] *)
Definition catch_ {A} (p : Js (Promise A)) (onRejected : JsError -> Js A)
  : Js (Promise A) :=
  let! r := p in
  match r with
  | Fulfilled v => ret (Fulfilled v)
  | Rejected e =>
      let h := onRejected e in
      match outcome h with
      | inl e' => MkJs (trace h) (inr (Rejected e'))
      | inr b => MkJs (trace h) (inr (Fulfilled b))
      end
  end.

(** The responses a context sent, in order. *)
Definition responsesOf (who : Context) (events : list Event) : list Response :=
  flat_map
    (fun e =>
       match e, who with
       | SendResponse ContentScript r, ContentScript => [r]
       | SendResponse Background r, Background => [r]
       | _, _ => []
       end)
    events.

Definition isFetch (e : Event) : bool :=
  match e with Fetch _ => true | _ => false end.

Definition isQuery (e : Event) : bool :=
  match e with QuerySelector _ | QuerySelectorAll _ => true | _ => false end.

Definition isReportRender (e : Event) : bool :=
  match e with SetMatchPercentage _ | SetSkillsList _ => true | _ => false end.

(** [chrome.storage.local]: the two keys of the persisted profile. *)
Record Storage := {
  storedUserSkills : option (list string);
  profileSetup : bool
}.

(** [response.json()]: the parsed body, or the parser's complaint. *)
Inductive Body :=
| BodyJson (value : Json)
| BodyMalformed (complaint : string).

Record HttpResponse := {
  status : Z;
  body : Body
}.

(** How [fetch] settles. *)
Inductive FetchOutcome :=
| FetchFailed (message : string)
| FetchResponded (response : HttpResponse).

Definition is2xx (r : HttpResponse) : bool :=
  (200 <=? status r) && (status r <=? 299).

Record Tab := {
  tabId : Z;
  tabUrl : option string
}.

(** What [chrome.runtime.sendMessage] meets on the other side. *)
Inductive BackgroundFate :=
| BackgroundListens
| BackgroundLastError (message : string)
| BackgroundSilent.

(** What [chrome.tabs.sendMessage] meets in the tab. *)
Inductive PageFate :=
| PageListens (document : Document)
| PageLastError (message : string).

Record World := {
  tabs : list Tab;
  page : PageFate;
  background : BackgroundFate;
  storage : Storage;
  fetchOutcome : FetchOutcome
}.

(** A response that reports success and carries the analysis data. *)
Definition carriesData (r : Response) : Prop :=
  success r = Some true ∧ is_Some (data r) ∧ error r = None.

(** A response that carries an error text and no data. *)
Definition carriesError (r : Response) : Prop :=
  is_Some (error r) ∧ data r = None ∧ success r ≠ Some true.

End Runtime.

Import Runtime.

(** ** Background service worker *)

Module Background.

(** [fetch('http://localhost:5000/analyze', ...)] *)
Definition fetch (w : World) (request : AnalysisRequest) : Js (Promise HttpResponse) :=
  do! emit (Fetch request) in
  match fetchOutcome w with
  | FetchFailed m => ret (Rejected (TypeError m))
  | FetchResponded r => ret (Fulfilled r)
  end.

(** [response.json()] *)
Definition json (response : HttpResponse) : Promise Json :=
  match body response with
  | BodyJson v => Fulfilled v
  | BodyMalformed m => Rejected (SyntaxError m)
  end.

(** [result.userSkills || []] *)
Definition storedOrEmpty (s : Storage) : list string :=
  match storedUserSkills s with
  | Some skills => skills
  | None => []
  end.

(** The [onMessage] listener; the result is the listener's return value,
    [None] for [undefined]. *)
Definition onMessage (w : World) (requestType : string) (requestData : JobDetails)
  : Js (option bool) :=
  if String.eqb requestType "analyzeJob" then
    do! emit StorageGet in
    let requestData :=
      {| requestDetails := requestData;
         requestSkills := storedOrEmpty (storage w) |} in
    let! _ :=
      catch_
        (then_
           (thenPromise (fetch w requestData) json)
           (fun data =>
              emit (SendResponse Background
                      {| success := Some true; data := Some data; error := None |})))
        (fun error =>
           emit (SendResponse Background
                   {| success := Some false; data := None;
                      error := Some (errorMessage error) |})) in
    ret (Some true)
  else ret None.

End Background.

(** ** Content script *)

Module ContentScript.

Definition DQ : string := String "034"%char EmptyString.

(** The attribute selector [[name*=DQ value DQ]]. *)
Definition attrContains (name value : string) : string :=
  "[" +:+ name +:+ "*=" +:+ DQ +:+ value +:+ DQ +:+ "]".

Definition descriptionSelectors : list string :=
  [ ".jobs-description-content__text";
    ".jobs-box__html-content";
    "[data-job-description]";
    "#job-details";
    ".description__text";
    attrContains "class" "job-details";
    attrContains "class" "description" ].

Definition companySelectors : list string :=
  [ ".jobs-unified-top-card__company-name";
    ".jobs-company__name";
    attrContains "data-tracking-control-name" "company";
    "a" +:+ attrContains "href" "/company/";
    attrContains "class" "company" ].

Definition titleSelectors : list string :=
  [ ".jobs-unified-top-card__job-title";
    ".job-details-jobs-unified-top-card__job-title";
    attrContains "class" "job-title";
    "h1" ].

(** Truthiness of a value that is a string or [null]. *)
Definition truthyText (v : option string) : bool :=
  match v with
  | Some s => nonEmpty s
  | None => false
  end.

(** [v || d] *)
Definition orDefault (v : option string) (d : string) : string :=
  match v with
  | Some s => if nonEmpty s then s else d
  | None => d
  end.

Fixpoint tryQuerySelectors (doc : Document) (selectors : list string)
  : Js (option string) :=
  match selectors with
  | [] => ret None
  | selector :: rest =>
      do! emit (QuerySelector selector) in
      match querySelector doc selector with
      | Some element =>
          if nonEmpty (trim (textContent element))
          then ret (Some (trim (textContent element)))
          else tryQuerySelectors doc rest
      | None => tryQuerySelectors doc rest
      end
  end.

(** [Array.from(container.querySelectorAll('p, li, div'))
      .map(el => el.textContent.trim()).filter(Boolean)] *)
Definition paragraphsOf (container : Node) : list string :=
  List.filter nonEmpty
    (map (fun el => trim (textContent el)) (querySelectorAllPLiDiv container)).

(** The block under [if (!jobDescription)]: [Some] is its early return. *)
Definition nestedDescription (doc : Document) (companyName jobTitle : option string)
  : Js (option JobDetails) :=
  do! emit (QuerySelector ".jobs-description") in
  match querySelector doc ".jobs-description" with
  | Some container =>
      do! emit (QuerySelectorAll "p, li, div") in
      let paragraphs := paragraphsOf container in
      if (0 <? length paragraphs)%nat then
        ret (Some {| description := join LF paragraphs;
                     company := orDefault companyName "Unknown Company";
                     title := orDefault jobTitle "Job Position" |})
      else ret None
  | None => ret None
  end.

Definition extractJobDetails (doc : Document) : Js (option JobDetails) :=
  if includes (hostname doc) "linkedin.com" then
    let! jobDescription := tryQuerySelectors doc descriptionSelectors in
    let! companyName := tryQuerySelectors doc companySelectors in
    let! jobTitle := tryQuerySelectors doc titleSelectors in
    let! early :=
      if negb (truthyText jobDescription)
      then nestedDescription doc companyName jobTitle
      else ret None in
    match early with
    | Some details => ret (Some details)
    | None =>
        match jobDescription, companyName with
        | Some d, Some c =>
            if nonEmpty d && nonEmpty c then
              ret (Some {| description := d;
                           company := c;
                           title := orDefault jobTitle "Job Position" |})
            else ret None
        | _, _ => ret None
        end
    end
  else ret None.

(** The callback of [chrome.runtime.sendMessage]. *)
Definition relayCallback (lastError : option string) (response : option Response)
  : Js unit :=
  match lastError with
  | Some m =>
      emit (SendResponse ContentScript
              {| success := None; data := None;
                 error := Some ("Extension communication error: " +:+ m) |})
  | None =>
      match response with
      | None =>
          emit (SendResponse ContentScript
                  {| success := None; data := None;
                     error := Some "Extension error: No response from background service." |})
      | Some response =>
          if truthyText (error response) then
            emit (SendResponse ContentScript
                    {| success := None; data := None; error := error response |})
          else emit (SendResponse ContentScript response)
      end
  end.

(** [chrome.runtime.sendMessage({type: 'analyzeJob', data}, callback)]:
    the background listener runs, then the callback receives the first
    response it sent. *)
Definition runtimeSendMessage (w : World) (details : JobDetails)
    (callback : option string -> option Response -> Js unit) : Js unit :=
  do! emit (RuntimeSendMessage details) in
  match background w with
  | BackgroundListens =>
      let listener := Background.onMessage w "analyzeJob" details in
      do! listener in
      callback None (head (responsesOf Runtime.Background (trace listener)))
  | BackgroundLastError m => callback (Some m) None
  | BackgroundSilent => callback None None
  end.

Definition couldNotFind : string :=
  "Could not find job details. Please make sure you're on a LinkedIn job posting page.".

(** The [onMessage] listener of the content script. *)
Definition onMessage (w : World) (doc : Document) (action : string)
  : Js (option bool) :=
  if String.eqb action "analyze" then
    let! jobDetails := extractJobDetails doc in
    match jobDetails with
    | None =>
        do! emit (SendResponse ContentScript
                    {| success := None; data := None; error := Some couldNotFind |}) in
        ret (Some false)
    | Some jobDetails =>
        do! runtimeSendMessage w jobDetails relayCallback in
        ret (Some true)
    end
  else ret None.

(** *** Pure readings of the extractor, used to state its properties *)

(** What one locator yields: the trimmed text of the element it resolves
    to, when there is such an element and that text is not empty. *)
Definition resolvedText (doc : Document) (selector : string) : option string :=
  match querySelector doc selector with
  | Some element =>
      if nonEmpty (trim (textContent element))
      then Some (trim (textContent element))
      else None
  | None => None
  end.

(** The first locator of the list that yields a text. *)
Fixpoint firstResolved (doc : Document) (selectors : list string) : option string :=
  match selectors with
  | [] => None
  | selector :: rest =>
      match resolvedText doc selector with
      | Some v => Some v
      | None => firstResolved doc rest
      end
  end.

(** The locators up to and including the first one that yields a text. *)
Fixpoint triedSelectors (doc : Document) (selectors : list string) : list string :=
  match selectors with
  | [] => []
  | selector :: rest =>
      match resolvedText doc selector with
      | Some _ => [selector]
      | None => selector :: triedSelectors doc rest
      end
  end.

(** The reading of the structural fallback that looks at the child nodes
    of the container only. *)
Definition childParagraphs (container : Node) : list string :=
  List.filter nonEmpty
    (map (fun el => trim (textContent el))
         (List.filter matchesPLiDiv (children container))).

(** A page whose first locator resolves to blank text and whose second
    locator resolves to a padded company name. *)
Definition blankThenAcme : Document :=
  {| hostname := "www.linkedin.com";
     querySelector := fun selector =>
       if String.eqb selector ".first" then Some (Element "span" [TextNode "   "])
       else if String.eqb selector ".second" then Some (Element "span" [TextNode "  Acme  "])
       else None |}.

(** A container with three flat children. *)
Definition threeChildren : Node :=
  Element "div"
    [ Element "p" [TextNode EmptyString];
      Element "p" [TextNode "Responsibilities: code"];
      Element "li" [TextNode "Benefits: great"] ].

(** A container whose only child is a division that wraps a paragraph. *)
Definition nestedParagraph : Node :=
  Element "div" [Element "div" [Element "p" [TextNode "Build things"]]].

(** A span without text, of class description-badge. *)
Definition blankDecoy : Node := Element "span" [TextNode " "].

(** A job page whose body is the blank span of class description-badge
    followed by the container, a division of class jobs-description whose
    own elements carry no class, no attribute and no heading. The span
    comes first in document order, so it is what the last description
    locator (class contains description) resolves to, although the
    container matches that locator too; the container is what
    [.jobs-description] resolves to; nothing matches any other locator. *)
Definition pageWithContainer (container : Node) : Document :=
  {| hostname := "www.linkedin.com";
     querySelector := fun selector =>
       if String.eqb selector ".jobs-description" then Some container
       else if String.eqb selector (attrContains "class" "description")
       then Some blankDecoy
       else None |}.

End ContentScript.

(** ** Popup *)

Module Popup.

(** The global [userSkills] array and the persisted profile. *)
Record PopupState := {
  userSkills : list string;
  store : Storage
}.

(** [saveUserSkills(skills)] *)
Definition saveUserSkills (skills : list string) (st : PopupState) : PopupState :=
  {| userSkills := userSkills st;
     store := {| storedUserSkills := Some skills; profileSetup := true |} |}.

(** [skillsText.split(',').map(skill => skill.trim())
      .filter(skill => skill.length > 0)] *)
Definition newSkillsOf (skillsText : string) : list string :=
  List.filter (fun skill => (0 <? String.length skill)%nat)
    (map trim (split "," skillsText)).

(** The [forEach] that pushes each skill the array does not include yet. *)
Definition pushUnique (userSkills newSkills : list string) : list string :=
  fold_left
    (fun acc skill => if arrayIncludes acc skill then acc else acc ++ [skill])
    newSkills userSkills.

Definition addSkills (inputValue : string) (st : PopupState) : PopupState :=
  let skillsText := toLowerCase (trim inputValue) in
  if negb (nonEmpty skillsText) then st
  else
    let skills := pushUnique (userSkills st) (newSkillsOf skillsText) in
    saveUserSkills skills {| userSkills := skills; store := store st |}.

(** The click listener of a remove control. *)
Definition removeSkill (skillToRemove : string) (st : PopupState) : PopupState :=
  {| userSkills :=
       List.filter (fun s => negb (String.eqb s skillToRemove)) (userSkills st);
     store := store st |}.

(** The click listener of the save-profile button. *)
Definition saveProfile (st : PopupState) : PopupState :=
  saveUserSkills (userSkills st) st.

(** A popup is opened: the global starts empty and is replaced by the
    stored array when there is one. *)
Definition openPopup (st : PopupState) : PopupState :=
  {| userSkills :=
       match storedUserSkills (store st) with
       | Some skills => skills
       | None => []
       end;
     store := store st |}.

Inductive Action :=
| AddSkills (inputValue : string)
| RemoveSkill (skillToRemove : string)
| SaveProfile
| OpenPopup.

Definition step (a : Action) (st : PopupState) : PopupState :=
  match a with
  | AddSkills inputValue => addSkills inputValue st
  | RemoveSkill skillToRemove => removeSkill skillToRemove st
  | SaveProfile => saveProfile st
  | OpenPopup => openPopup st
  end.

(** A fresh installation: nothing in memory, nothing stored. *)
Definition initial : PopupState :=
  {| userSkills := [];
     store := {| storedUserSkills := None; profileSetup := false |} |}.

(** The profiles that adding, removing, saving and reopening the popup
    produce from a fresh installation. *)
Inductive reachable : PopupState -> Prop :=
| reachable_initial : reachable initial
| reachable_step (a : Action) (st : PopupState) :
    reachable st -> reachable (step a st).

(** The entries of an input text: its comma-separated pieces, lower-cased
    and trimmed, the empty ones dropped. *)
Definition entriesOf (inputValue : string) : list string :=
  newSkillsOf (toLowerCase (trim inputValue)).

(** The skills of [newSkills] that are not in [seen], each one at its
    first occurrence. *)
Fixpoint firstOccurrences (seen newSkills : list string) : list string :=
  match newSkills with
  | [] => []
  | skill :: rest =>
      if arrayIncludes seen skill then firstOccurrences seen rest
      else skill :: firstOccurrences (skill :: seen) rest
  end.

(** No two entries alike, each entry in lower case. *)
Definition lowercaseUnique (skills : list string) : Prop :=
  NoDup skills ∧ Forall is_lowercase skills.

(** What every reachable profile satisfies: the list in memory and the
    stored list are unique and in lower case, and whatever is in memory
    is also stored. *)
Definition consistent (st : PopupState) : Prop :=
  lowercaseUnique (userSkills st)
  ∧ (∀ stored, storedUserSkills (store st) = Some stored → lowercaseUnique stored)
  ∧ (∀ skill, skill ∈ userSkills st →
       ∃ stored, storedUserSkills (store st) = Some stored ∧ skill ∈ stored).

Definition showError (message : string) : Js unit := emit (ShowError message).

(** [analysisData.skills.map(s => s.toLowerCase())]; an element that is
    not a string has no [toLowerCase] (messages as V8 words them). *)
Fixpoint mapToLowerCase (items : list Json) : Js (list string) :=
  match items with
  | [] => ret []
  | JStr s :: rest =>
      let! tail := mapToLowerCase rest in
      ret (toLowerCase s :: tail)
  | JNull :: _ =>
      throw (TypeError "Cannot read properties of null (reading 'toLowerCase')")
  | _ :: _ => throw (TypeError "s.toLowerCase is not a function")
  end.

Definition decimal (n : Z) : string :=
  DecimalString.NilZero.string_of_int (Z.to_int n).

(** [String.prototype.repeat] refuses a negative count. *)
Definition checkCount (count : Z) : Js unit :=
  if count <? 0
  then throw (RangeError ("Invalid count value: " +:+ decimal count))
  else ret tt.

(** The body of the [try] block of the analyze handler. *)
Definition processAnalysis (userSkills : list string) (analysisData : Json)
  : Js unit :=
  let skills := getProp analysisData "skills" in
  if negb (truthy skills) || negb (isArray skills) then
    throw (Error "Invalid skills format from server")
  else
    let matchPercent := orElse (getProp analysisData "matchPercentage") (JNum 0) in
    let! jobSkills :=
      mapToLowerCase (match skills with Some (JArr items) => items | _ => [] end) in
    let matchingSkills := MatchEngine.matchingSkills userSkills jobSkills in
    let missingSkills := MatchEngine.missingSkills userSkills jobSkills in
    do! emit (SetMatchPercentage matchPercent) in
    do! emit (SetSkillsList
                (map (pair Match) matchingSkills ++ map (pair Missing) missingSkills)) in
    do! match getProp analysisData "inclusionScore" with
        | Some (JNum score) =>
            do! emit (SetInclusionNumber score) in
            do! checkCount score in
            do! checkCount (5 - score) in
            emit (SetInclusionStars score (5 - score))
        | _ => ret tt
        end in
    match getProp analysisData "supportPrograms" with
    | Some (JArr programs) => emit (SetProgramsList programs)
    | _ => ret tt
    end.


(** The callback of [chrome.tabs.sendMessage]. *)
Definition onResponse (userSkills : list string)
    (lastError : option string) (response : option Response) : Js unit :=
  match lastError with
  | Some m => showError ("Error: " +:+ m)
  | None =>
      match response with
      | None => showError "No response from the page. Please refresh and try again."
      | Some response =>
          if ContentScript.truthyText (error response) then
            showError (default EmptyString (error response))
          else if negb (truthy (data response)) then
            showError "Invalid response structure from background script."
          else
            tryCatch
              (processAnalysis userSkills (default JNull (data response)))
              (fun error =>
                 showError ("Error processing job details: " +:+ errorMessage error))
      end
  end.

(** [tabs[0]?.url?.includes('linkedin.com/jobs')] *)
Definition onJobsPage (tabs : list Tab) : bool :=
  match tabs with
  | tab :: _ =>
      match tabUrl tab with
      | Some url => includes url "linkedin.com/jobs"
      | None => false
      end
  | [] => false
  end.

(** [chrome.tabs.sendMessage(tabs[0].id, {action: "analyze"}, callback)]:
    the listener in the tab runs, then the callback receives the first
    response it sent. *)
Definition tabsSendMessage (w : World) (tab : Z)
    (callback : option string -> option Response -> Js unit) : Js unit :=
  do! emit (TabsSendMessage tab) in
  match page w with
  | PageListens doc =>
      let listener := ContentScript.onMessage w doc "analyze" in
      do! listener in
      callback None (head (responsesOf ContentScript (trace listener)))
  | PageLastError m => callback (Some m) None
  end.

(** The click listener of the analyze button. *)
Definition analyzeClick (w : World) (userSkills : list string) : Js unit :=
  do! emit ClearError in
  do! emit TabsQuery in
  if negb (onJobsPage (tabs w)) then
    showError "Please navigate to a LinkedIn job posting first."
  else
    tabsSendMessage w
      (match tabs w with tab :: _ => tabId tab | [] => 0 end)
      (onResponse userSkills).

End Popup.

(** ** Sample worlds *)

Module Scenarios.

Definition jobPage : Document :=
  {| hostname := "www.linkedin.com";
     querySelector := fun selector =>
       if String.eqb selector "#job-details"
       then Some (Element "div" [TextNode " Write Python and SQL "])
       else if String.eqb selector ".jobs-company__name"
       then Some (Element "a" [TextNode "Acme"])
       else None |}.

Definition otherPage : Document :=
  {| hostname := "www.example.com";
     querySelector := fun _ => Some (Element "div" [TextNode "A job"]) |}.

Definition pythonProfile : Storage :=
  {| storedUserSkills := Some ["python"]; profileSetup := true |}.

(** The service answers 500 with a JSON body. *)
Definition serverError : World :=
  {| tabs := [{| tabId := 7; tabUrl := Some "https://www.linkedin.com/jobs/view/1" |}];
     page := PageListens jobPage;
     background := BackgroundListens;
     storage := pythonProfile;
     fetchOutcome :=
       FetchResponded
         {| status := 500;
            body := BodyJson (JObj [("detail", JStr "Internal Server Error")]) |} |}.

(** The active tab shows a page of another site. *)
Definition offSite : World :=
  {| tabs := [{| tabId := 3; tabUrl := Some "https://www.example.com/careers" |}];
     page := PageListens otherPage;
     background := BackgroundListens;
     storage := pythonProfile;
     fetchOutcome :=
       FetchResponded {| status := 200; body := BodyJson (JObj [("skills", JArr [])]) |} |}.

End Scenarios.

(** ** Popup feedback and sections *)

Module PopupUi.

Import Popup.

(** The [forEach] of [addSkills] together with its counter [addedCount]. *)
Definition pushCounting (userSkills newSkills : list string) : list string * Z :=
  fold_left
    (fun '(acc, addedCount) skill =>
       if arrayIncludes acc skill then (acc, addedCount)
       else (acc ++ [skill], addedCount + 1))
    newSkills (userSkills, 0).

(** The template [Added N new skill(s)!] with its plural. *)
Definition addedHint (addedCount : Z) : string :=
  "Added " +:+ decimal addedCount +:+ " new skill" +:+
  (if addedCount =? 1 then EmptyString else "s") +:+ "!".

(** What [addSkills] writes into the hint: [None] when the hint is left as
    it is (blank input, or nothing new). *)
Definition addSkillsHint (inputValue : string) (st : PopupState) : option string :=
  let skillsText := toLowerCase (trim inputValue) in
  if negb (nonEmpty skillsText) then None
  else
    let addedCount := snd (pushCounting (userSkills st) (newSkillsOf skillsText)) in
    if 0 <? addedCount then Some (addedHint addedCount) else None.

(** The section the load handler shows when the popup opens. *)
Definition sectionOnOpen (s : Storage) : string :=
  if negb (profileSetup s) then "profile-setup" else "analysis-section".

Definition isShowError (e : Event) : bool :=
  match e with ShowError _ => true | _ => false end.

Definition isRelayEvent (e : Event) : bool :=
  match e with
  | RuntimeSendMessage _ | StorageGet | Fetch _ => true
  | _ => false
  end.

(** The request bodies that a run posted to the service. *)
Definition requestsOf (events : list Event) : list AnalysisRequest :=
  flat_map (fun e => match e with Fetch r => [r] | _ => [] end) events.

(** A JSON value that is a string. *)
Definition isText (v : Json) : bool :=
  match v with JStr _ => true | _ => false end.

(** A string without the character [c]. *)
Fixpoint lacksChar (c : ascii) (s : string) : bool :=
  match s with
  | EmptyString => true
  | String d s' => negb (Ascii.eqb d c) && lacksChar c s'
  end.





(** [tabs[0].id] *)
Definition activeTabId (w : World) : Z :=
  match tabs w with tab :: _ => tabId tab | [] => 0 end.

(** The response [{ error: message }]. *)
Definition errorResponse (message : string) : Response :=
  {| success := None; data := None; error := Some message |}.

(** The response the background sends for each way the fetch chain can
    settle. *)
Definition settledResponse (settled : FetchOutcome) : Response :=
  match settled with
  | FetchFailed m => {| success := Some false; data := None; error := Some m |}
  | FetchResponded r =>
      match body r with
      | BodyJson v => {| success := Some true; data := Some v; error := None |}
      | BodyMalformed m => {| success := Some false; data := None; error := Some m |}
      end
  end.

(** What the content script passes on for a response of the background. *)
Definition forwarded (r : Response) : Response :=
  if ContentScript.truthyText (error r)
  then {| success := None; data := None; error := error r |}
  else r.

(** The failure message of a fetch chain that did not yield JSON. *)
Definition failureOf (settled : FetchOutcome) : option string :=
  match settled with
  | FetchFailed m => Some m
  | FetchResponded r =>
      match body r with
      | BodyJson _ => None
      | BodyMalformed m => Some m
      end
  end.

(** A skill as the add operation produces it: not empty, trimmed and
    without a comma. *)
Definition wellFormedSkill (s : string) : Prop :=
  s ≠ EmptyString ∧ trim s = s ∧ lacksChar "," s = true.

End PopupUi.

(** * Properties *)

(** ** Strings *)

Module JsStringFacts.

Lemma append_nil (s : string) : EmptyString +:+ s = s.
Proof. reflexivity. Qed.

Lemma append_cons (c : ascii) (s t : string) :
  String c s +:+ t = String c (s +:+ t).
Proof. reflexivity. Qed.

Lemma append_nil_r (s : string) : s +:+ EmptyString = s.
Proof. induction s as [|c s IH]; [done|]. by rewrite append_cons, IH. Qed.

Lemma append_assoc (s t u : string) : (s +:+ t) +:+ u = s +:+ t +:+ u.
Proof. induction s as [|c s IH]; [done|]. by rewrite !append_cons, IH. Qed.

Lemma startsWith_spec (s t : string) :
  startsWith s t = true ↔ ∃ post, s = t +:+ post.
Proof.
  revert s. induction t as [|a t IH]; intros s; simpl.
  - split; [intros _; by exists s | done].
  - destruct s as [|b s].
    + split; [done | intros [post Hpost]; discriminate Hpost].
    + rewrite andb_true_iff, Ascii.eqb_eq, IH. split.
      * intros [-> [post ->]]. by exists post.
      * intros [post Hpost]. rewrite append_cons in Hpost.
        injection Hpost as -> ->. eauto.
Qed.

Lemma includes_spec (s t : string) :
  includes s t = true ↔ is_substring t s.
Proof.
  unfold is_substring. induction s as [|c s IH]; simpl.
  - rewrite orb_false_r, startsWith_spec. split.
    + intros [post Hpost]. by exists EmptyString, post.
    + intros [[|c pre] [post Hpost]]; [by exists post|].
      rewrite append_cons in Hpost. discriminate Hpost.
  - rewrite orb_true_iff, startsWith_spec, IH. split.
    + intros [[post Hpost] | (pre & post & Hpost)].
      * by exists EmptyString, post.
      * exists (String c pre), post. by rewrite append_cons, Hpost.
    + intros [[|c' pre] [post Hpost]].
      * left. by exists post.
      * right. rewrite append_cons in Hpost. injection Hpost as -> ->.
        by exists pre, post.
Qed.

Lemma includes_empty (s : string) : includes s EmptyString = true.
Proof. apply includes_spec. exists EmptyString, s. reflexivity. Qed.

Lemma lower_char_idemp (c : ascii) : lower_char (lower_char c) = lower_char c.
Proof. destruct c as [[] [] [] [] [] [] [] []]; reflexivity. Qed.

Lemma toLowerCase_idemp (s : string) : toLowerCase (toLowerCase s) = toLowerCase s.
Proof.
  induction s as [|c s IH]; simpl; [done|]. by rewrite lower_char_idemp, IH.
Qed.

Lemma toLowerCase_append (s t : string) :
  toLowerCase (s +:+ t) = toLowerCase s +:+ toLowerCase t.
Proof.
  induction s as [|c s IH]; [done|]. rewrite append_cons. simpl.
  by rewrite IH, append_cons.
Qed.

Lemma arrayIncludes_spec (arr : list string) (x : string) :
  arrayIncludes arr x = true ↔ x ∈ arr.
Proof.
  unfold arrayIncludes. rewrite existsb_exists, list_elem_of_In. split.
  - intros (y & Hy & Heq). apply String.eqb_eq in Heq. by subst.
  - intros Hx. exists x. split; [done | apply String.eqb_refl].
Qed.

Lemma arrayIncludes_false (arr : list string) (x : string) :
  arrayIncludes arr x = false ↔ x ∉ arr.
Proof.
  rewrite <- arrayIncludes_spec. destruct (arrayIncludes arr x); naive_solver.
Qed.

#[global] Instance is_substring_dec (t s : string) : Decision (is_substring t s).
Proof.
  destruct (includes s t) eqn:E.
  - left. by apply includes_spec.
  - right. intros H. apply includes_spec in H. congruence.
Defined.

(** [List.filter] with a boolean test is stdpp's [filter] with the
    property the test decides. *)
Lemma List_filter_decide {A} (f : A → bool) (P : A → Prop)
    `{!∀ x, Decision (P x)} (l : list A) :
  (∀ x, f x = true ↔ P x) → List.filter f l = filter P l.
Proof.
  intros Hf. induction l as [|x l IH]; [done|].
  simpl. rewrite filter_cons, IH. destruct (f x) eqn:E.
  - rewrite decide_True; [done|]. by apply Hf.
  - rewrite decide_False; [done|]. intros HP. apply Hf in HP. congruence.
Qed.

Lemma list_filter_iff_in {A} (P Q : A → Prop)
    `{!∀ x, Decision (P x), !∀ x, Decision (Q x)} (l : list A) :
  (∀ x, x ∈ l → P x ↔ Q x) → filter P l = filter Q l.
Proof.
  induction l as [|x l IH]; intros HPQ; [done|].
  rewrite !filter_cons, IH by (intros y Hy; apply HPQ; by right).
  destruct (decide (P x)) as [HP|HP], (decide (Q x)) as [HQ|HQ]; try done.
  - apply HPQ in HP; [done | by left].
  - apply HPQ in HQ; [done | by left].
Qed.

Lemma existsb_Exists {A} (f : A → bool) (P : A → Prop) (l : list A) :
  (∀ x, f x = true ↔ P x) → existsb f l = true ↔ Exists P l.
Proof.
  intros Hf. rewrite existsb_exists, Exists_exists. split.
  - intros (x & Hx & Hfx). exists x. rewrite list_elem_of_In. by rewrite <- Hf.
  - intros (x & Hx & HP). exists x. rewrite <- list_elem_of_In. by rewrite Hf.
Qed.

End JsStringFacts.

Import JsStringFacts.

(** ** Skill matching *)

Module MatchEngineFacts.

Import MatchEngine.

Lemma matchingSkills_filter (userSkills jobSkills : list string) :
  matchingSkills userSkills jobSkills =
  filter (λ u, Exists (λ j, is_substring (toLowerCase u) j) jobSkills) userSkills.
Proof.
  apply List_filter_decide. intros u.
  apply existsb_Exists. intros j. apply includes_spec.
Qed.

Lemma missingSkills_filter (userSkills jobSkills : list string) :
  missingSkills userSkills jobSkills =
  filter (λ j, ¬ Exists (λ u, is_substring (toLowerCase u) (toLowerCase j)) userSkills)
         jobSkills.
Proof.
  apply List_filter_decide. intros j.
  rewrite negb_true_iff, <- not_true_iff_false.
  apply not_iff_compat, existsb_Exists. intros u. apply includes_spec.
Qed.

(** C1. After lowercasing both sides, the matching skills are exactly the
    user skills that some job skill contains as a substring, in profile
    order, and the missing skills are exactly the job skills that contain
    no user skill as a substring, in the order the service listed them;
    the profile python, sql against Python Developer, SQL Expert, Excel
    gives matching python, sql and missing excel; with an empty profile
    nothing matches and every job skill is missing. *)
Theorem computeMatch_categorises :
  (∀ userSkills skills : list string,
     reportMatching (computeMatch userSkills skills) =
       filter (λ u, Exists (λ j, is_substring (toLowerCase u) (toLowerCase j)) skills)
              userSkills
     ∧ reportMissing (computeMatch userSkills skills) =
       filter (λ j, ¬ Exists (λ u, is_substring (toLowerCase u) j) userSkills)
              (toLowerCase <$> skills))
  ∧ computeMatch ["python"; "sql"] ["Python Developer"; "SQL Expert"; "Excel"] =
      {| reportMatching := ["python"; "sql"]; reportMissing := ["excel"] |}
  ∧ (∀ skills : list string,
       computeMatch [] skills =
         {| reportMatching := []; reportMissing := toLowerCase <$> skills |}).
Proof.
  split; [|split].
  - intros userSkills skills. unfold computeMatch, jobSkillsOf. simpl. split.
    + rewrite matchingSkills_filter. apply list_filter_iff. intros u.
      by rewrite Exists_fmap.
    + rewrite missingSkills_filter. apply list_filter_iff_in. intros j Hj.
      apply list_elem_of_fmap in Hj as (j0 & -> & _).
      by rewrite toLowerCase_idemp.
  - reflexivity.
  - intros skills. unfold computeMatch, jobSkillsOf, matchingSkills, missingSkills.
    simpl. f_equal. induction skills as [|j skills IH]; [done|].
    simpl. by rewrite IH.
Qed.

End MatchEngineFacts.

(** ** The effect monad *)

Module RuntimeFacts.

Lemma trace_bind {A B} (m : Js A) (k : A → Js B) :
  trace (bind m k) =
  trace m ++ match outcome m with inl _ => [] | inr a => trace (k a) end.
Proof. unfold bind. destruct (outcome m); simpl; by rewrite ?app_nil_r. Qed.

Lemma outcome_bind {A B} (m : Js A) (k : A → Js B) :
  outcome (bind m k) =
  match outcome m with inl e => inl e | inr a => outcome (k a) end.
Proof. unfold bind. by destruct (outcome m). Qed.

Lemma bind_ret {A B} (a : A) (k : A → Js B) : bind (ret a) k = k a.
Proof. unfold bind. simpl. by destruct (k a). Qed.

Lemma bind_value {A B} (t : list Event) (a : A) (k : A → Js B) :
  bind (MkJs t (inr a)) k = MkJs (t ++ trace (k a)) (outcome (k a)).
Proof. reflexivity. Qed.

Lemma bind_emit {B} (e : Event) (k : unit → Js B) :
  bind (emit e) k = MkJs (e :: trace (k tt)) (outcome (k tt)).
Proof. reflexivity. Qed.

Lemma responsesOf_app (who : Context) (l k : list Event) :
  responsesOf who (l ++ k) = responsesOf who l ++ responsesOf who k.
Proof. unfold responsesOf. apply flat_map_app. Qed.

(** Events that are no response of [who] contribute nothing. *)
Lemma responsesOf_none (who : Context) (l : list Event) :
  Forall (λ e, ∀ s r, e = SendResponse s r → s ≠ who) l →
  responsesOf who l = [].
Proof.
  induction 1 as [|e l He _ IH]; [done|].
  unfold responsesOf in *. simpl. rewrite IH.
  destruct e as [| | | | | | | | |s r| | | | |]; try by destruct who.
  specialize (He s r eq_refl). by destruct s, who.
Qed.

End RuntimeFacts.

Import RuntimeFacts.

(** ** The analyze handler of the popup *)

Module AnalyzeFacts.

Import MatchEngine Popup.

Lemma mapToLowerCase_strings (names : list string) :
  mapToLowerCase (JStr <$> names) = ret (toLowerCase <$> names).
Proof.
  induction names as [|s names IH]; [done|].
  rewrite !fmap_cons. cbn [mapToLowerCase]. by rewrite IH, bind_ret.
Qed.



Lemma onResponse_data (userSkills : list string) (response : Response)
    (analysisData : Json) :
  ContentScript.truthyText (error response) = false →
  data response = Some analysisData →
  truthy (Some analysisData) = true →
  onResponse userSkills None (Some response) =
    tryCatch
      (processAnalysis userSkills analysisData)
      (fun error => showError ("Error processing job details: " +:+ errorMessage error)).
Proof.
  intros Herr Hdata Htruthy. unfold onResponse.
  by rewrite Herr, Hdata, Htruthy.
Qed.







End AnalyzeFacts.

(** ** The content script *)

Module ContentScriptFacts.

Import ContentScript.

Lemma tryQuerySelectors_eq (doc : Document) (selectors : list string) :
  tryQuerySelectors doc selectors =
    MkJs (QuerySelector <$> triedSelectors doc selectors)
         (inr (firstResolved doc selectors)).
Proof.
  induction selectors as [|selector rest IH]; [done|].
  cbn [tryQuerySelectors triedSelectors firstResolved]. unfold resolvedText.
  rewrite bind_emit.
  destruct (querySelector doc selector) as [element|]; [|by rewrite IH].
  destruct (nonEmpty (trim (textContent element))); [done | by rewrite IH].
Qed.

Lemma resolvedText_spec (doc : Document) (selector v : string) :
  resolvedText doc selector = Some v ↔
  ∃ element, querySelector doc selector = Some element
             ∧ v = trim (textContent element) ∧ v ≠ EmptyString.
Proof.
  unfold resolvedText. split.
  - destruct (querySelector doc selector) as [element|]; [|done].
    destruct (trim (textContent element)) eqn:E; simpl; [done|].
    intros [= <-]. by exists element.
  - intros (element & -> & -> & Hne).
    destruct (trim (textContent element)); by simpl.
Qed.

(** Every list of locators either fails as a whole or splits at its
    first locator that yields a text. *)
Lemma selectors_split (doc : Document) (selectors : list string) :
  (Forall (λ s, resolvedText doc s = None) selectors
   ∧ triedSelectors doc selectors = selectors
   ∧ firstResolved doc selectors = None)
  ∨ (∃ before selector after v,
       selectors = before ++ selector :: after
       ∧ Forall (λ s, resolvedText doc s = None) before
       ∧ resolvedText doc selector = Some v
       ∧ triedSelectors doc selectors = before ++ [selector]
       ∧ firstResolved doc selectors = Some v).
Proof.
  induction selectors as [|s rest IH]; [left; by repeat constructor|].
  cbn [triedSelectors firstResolved].
  destruct (resolvedText doc s) as [v|] eqn:Hs.
  - right. exists [], s, rest, v. by repeat constructor.
  - destruct IH as [(Hall & Htried & Hfirst) | (before & sel & after & v & IH)].
    + left. rewrite Htried. by repeat constructor.
    + destruct IH as (-> & Hbefore & Hsel & Htried & Hfirst).
      right. exists (s :: before), sel, after, v. rewrite Htried.
      by repeat constructor.
Qed.

(** C3. The field extractor queries the locators in their declared order
    and stops at the first one whose element has text that is not empty
    after trimming: either every locator fails, all of them were queried
    in order and the result is absent, or the list splits at a first
    succeeding locator, exactly the locators up to it were queried in
    order, and its trimmed text is returned. A locator succeeds exactly
    when it resolves to an element whose trimmed text is not empty. With
    a first locator on blank text and a second on a padded name, the
    name of the second, trimmed, is returned. *)
Theorem tryQuerySelectors_first_match :
  (∀ (doc : Document) (selectors : list string),
     (Forall (λ s, resolvedText doc s = None) selectors
      ∧ tryQuerySelectors doc selectors =
          MkJs (QuerySelector <$> selectors) (inr None))
     ∨ (∃ before selector after v,
          selectors = before ++ selector :: after
          ∧ Forall (λ s, resolvedText doc s = None) before
          ∧ resolvedText doc selector = Some v
          ∧ tryQuerySelectors doc selectors =
              MkJs (QuerySelector <$> (before ++ [selector])) (inr (Some v))))
  ∧ (∀ (doc : Document) (selector v : string),
       resolvedText doc selector = Some v ↔
       ∃ element, querySelector doc selector = Some element
                  ∧ v = trim (textContent element) ∧ v ≠ EmptyString)
  ∧ tryQuerySelectors blankThenAcme [".first"; ".second"; ".third"] =
      MkJs [QuerySelector ".first"; QuerySelector ".second"] (inr (Some "Acme")).
Proof.
  split; [|split].
  - intros doc selectors. rewrite tryQuerySelectors_eq.
    destruct (selectors_split doc selectors)
      as [(Hall & -> & ->) | (before & sel & after & v & Hsplit)].
    + by left.
    + destruct Hsplit as (Heq & Hbefore & Hsel & -> & ->).
      right. by exists before, sel, after, v.
  - apply resolvedText_spec.
  - reflexivity.
Qed.

Lemma firstResolved_nonEmpty (doc : Document) (selectors : list string) (v : string) :
  firstResolved doc selectors = Some v → nonEmpty v = true.
Proof.
  induction selectors as [|s rest IH]; [done|]. cbn [firstResolved].
  destruct (resolvedText doc s) as [u|] eqn:Hs; [|done].
  intros [= <-]. apply resolvedText_spec in Hs as (_ & _ & _ & Hne).
  by destruct u.
Qed.

(** Forget which locators were tried and what they gave. *)
Ltac abstract_fields doc :=
  generalize (firstResolved doc titleSelectors) as ft;
  generalize (firstResolved doc companySelectors) as fc;
  generalize (triedSelectors doc titleSelectors) as tt;
  generalize (triedSelectors doc companySelectors) as tc;
  generalize (triedSelectors doc descriptionSelectors) as td;
  intros td tc tt fc ft.

(** The queries of the three primary locator lists, in order. *)
Lemma primary_queries (doc : Document) :
  (QuerySelector <$> triedSelectors doc descriptionSelectors) ++
  (QuerySelector <$> triedSelectors doc companySelectors) ++
  (QuerySelector <$> triedSelectors doc titleSelectors) =
  QuerySelector <$> (triedSelectors doc descriptionSelectors ++
                     triedSelectors doc companySelectors ++
                     triedSelectors doc titleSelectors).
Proof. by rewrite !fmap_app. Qed.

(** On a recognised host with a primary description, the fallback is
    skipped. *)
Lemma extractJobDetails_primary (doc : Document) (d : string) :
  includes (hostname doc) "linkedin.com" = true →
  firstResolved doc descriptionSelectors = Some d →
  extractJobDetails doc =
    MkJs (QuerySelector <$> (triedSelectors doc descriptionSelectors ++
                             triedSelectors doc companySelectors ++
                             triedSelectors doc titleSelectors))
         (inr (match firstResolved doc companySelectors with
               | Some c =>
                   Some {| description := d; company := c;
                           title := orDefault (firstResolved doc titleSelectors)
                                              "Job Position" |}
               | None => None
               end)).
Proof.
  intros Hhost Hdesc. unfold extractJobDetails.
  rewrite Hhost, !tryQuerySelectors_eq, Hdesc, <- primary_queries.
  pose proof (firstResolved_nonEmpty _ _ _ Hdesc) as Hd.
  pose proof (firstResolved_nonEmpty doc companySelectors) as Hc.
  revert Hc. abstract_fields doc. intros Hc.
  unfold bind. simpl. rewrite Hd. simpl.
  destruct fc as [c|]; simpl; [|by rewrite !app_nil_r].
  rewrite (Hc c eq_refl). simpl. by rewrite !app_nil_r.
Qed.

(** On a recognised host without a primary description, a container with
    at least one line of text ends the extraction at once. *)
Lemma extractJobDetails_fallback (doc : Document) (container : Node) :
  includes (hostname doc) "linkedin.com" = true →
  firstResolved doc descriptionSelectors = None →
  querySelector doc ".jobs-description" = Some container →
  paragraphsOf container ≠ [] →
  extractJobDetails doc =
    MkJs ((QuerySelector <$> (triedSelectors doc descriptionSelectors ++
                              triedSelectors doc companySelectors ++
                              triedSelectors doc titleSelectors ++
                              [".jobs-description"]))
          ++ [QuerySelectorAll "p, li, div"])
         (inr (Some {| description := join LF (paragraphsOf container);
                       company := orDefault (firstResolved doc companySelectors)
                                            "Unknown Company";
                       title := orDefault (firstResolved doc titleSelectors)
                                          "Job Position" |})).
Proof.
  intros Hhost Hdesc Hcontainer Hlines. unfold extractJobDetails.
  rewrite Hhost, !tryQuerySelectors_eq, Hdesc.
  unfold nestedDescription. rewrite Hcontainer.
  rewrite !fmap_app. abstract_fields doc.
  destruct (paragraphsOf container) as [|line lines] eqn:Hp; [done|].
  unfold bind. simpl. by rewrite <- !app_assoc.
Qed.

Lemma extractJobDetails_other_host (doc : Document) :
  includes (hostname doc) "linkedin.com" = false →
  extractJobDetails doc = MkJs [] (inr None).
Proof. intros Hhost. unfold extractJobDetails. by rewrite Hhost. Qed.

(** Below a container whose children hold no matching element, the
    matching descendants are the matching children. *)
Lemma querySelectorAll_flat (container : Node) :
  (∀ child, child ∈ children container → querySelectorAllPLiDiv child = []) →
  querySelectorAllPLiDiv container = List.filter matchesPLiDiv (children container).
Proof.
  unfold querySelectorAllPLiDiv. destruct container as [data|tag cs]; [done|].
  simpl. induction cs as [|c cs IH]; intros Hflat; [done|].
  simpl. rewrite List.filter_app. simpl.
  rewrite (Hflat c) by (by left).
  rewrite IH by (intros child Hchild; apply Hflat; by right).
  by destruct (matchesPLiDiv c).
Qed.

(** Induction on a node with the property at hand for all its children. *)
Fixpoint Node_children_ind (P : Node → Prop)
    (Htext : ∀ data, P (TextNode data))
    (Helement : ∀ tag cs, Forall P cs → P (Element tag cs))
    (n : Node) : P n :=
  match n with
  | TextNode data => Htext data
  | Element tag cs =>
      Helement tag cs
        ((fix go (l : list Node) : Forall P l :=
            match l return Forall P l with
            | [] => List.Forall_nil P
            | c :: l' =>
                List.Forall_cons P c l' (Node_children_ind P Htext Helement c) (go l')
            end) cs)
  end.

(** The list [descendants] holds exactly the nodes below the container. *)
Lemma descendants_spec (container n : Node) :
  n ∈ descendants container ↔ descendantOf n container.
Proof.
  split.
  - revert n. induction container as [data|tag cs IH] using Node_children_ind;
      intros n Hn; [by apply elem_of_nil in Hn|].
    simpl in Hn. apply list_elem_of_In, in_flat_map in Hn as (c & Hc & Hn).
    apply list_elem_of_In in Hc. rewrite Forall_forall in IH.
    destruct Hn as [<- | Hn].
    + by apply descendant_child.
    + apply (descendant_deeper tag cs c n Hc). by apply IH, list_elem_of_In.
  - induction 1 as [tag cs c Hc | tag cs c n Hc _ IH]; simpl;
      apply list_elem_of_In, in_flat_map; exists c;
      (split; [by apply list_elem_of_In|]).
    + by left.
    + right. by apply list_elem_of_In.
Qed.

(** A line of the fallback is the trimmed, non-empty text of a paragraph,
    list item or division anywhere below the container. *)
Lemma paragraphsOf_elem_of (container : Node) (line : string) :
  line ∈ paragraphsOf container ↔
  ∃ el, descendantOf el container ∧ matchesPLiDiv el = true
        ∧ line = trim (textContent el) ∧ line ≠ EmptyString.
Proof.
  unfold paragraphsOf, querySelectorAllPLiDiv.
  rewrite list_elem_of_In, filter_In, in_map_iff. split.
  - intros [(el & <- & Hel) Hne]. apply filter_In in Hel as [Hel Hmatch].
    exists el. split; [by apply descendants_spec, list_elem_of_In|].
    split; [done|]. split; [done|]. intros Hempty. by rewrite Hempty in Hne.
  - intros (el & Hel & Hmatch & -> & Hne). split.
    + exists el. split; [done|]. apply filter_In. split; [|done].
      by apply list_elem_of_In, descendants_spec.
    + by destruct (trim (textContent el)).
Qed.

(** C4, amended. The structural fallback is skipped whenever a primary
    description locator succeeds. When none does, the container exists
    and at least one line results, extraction returns at once with the
    lines joined by newlines, the company defaulting to Unknown Company
    and the title to Job Position. The lines are the trimmed, non-empty
    texts of all paragraph, list-item and division elements below the
    container, at any depth and in document order: a text is among the
    lines exactly when it is the trimmed, non-empty text of such an
    element that is a child of the container or lies below one of its
    children. The lines are the texts of the child nodes when no child
    holds such an element itself, as for the three children that give
    the description Responsibilities: code, newline, Benefits: great, on
    a page where a blank element is all that the description locators
    find. *)
Theorem structural_fallback :
  (∀ (doc : Document) (d : string),
     includes (hostname doc) "linkedin.com" = true →
     firstResolved doc descriptionSelectors = Some d →
     trace (extractJobDetails doc) =
       QuerySelector <$> (triedSelectors doc descriptionSelectors ++
                          triedSelectors doc companySelectors ++
                          triedSelectors doc titleSelectors))
  ∧ (∀ (doc : Document) (container : Node),
       includes (hostname doc) "linkedin.com" = true →
       firstResolved doc descriptionSelectors = None →
       querySelector doc ".jobs-description" = Some container →
       paragraphsOf container ≠ [] →
       outcome (extractJobDetails doc) =
         inr (Some {| description := join LF (paragraphsOf container);
                      company := orDefault (firstResolved doc companySelectors)
                                           "Unknown Company";
                      title := orDefault (firstResolved doc titleSelectors)
                                         "Job Position" |}))
  ∧ (∀ container : Node,
       paragraphsOf container =
         List.filter nonEmpty
           (map (fun el => trim (textContent el))
                (List.filter matchesPLiDiv (descendants container))))
  ∧ (∀ (container : Node) (line : string),
       line ∈ paragraphsOf container ↔
       ∃ el, descendantOf el container ∧ matchesPLiDiv el = true
             ∧ line = trim (textContent el) ∧ line ≠ EmptyString)
  ∧ (∀ container : Node,
       (∀ child, child ∈ children container → querySelectorAllPLiDiv child = []) →
       paragraphsOf container = childParagraphs container)
  ∧ outcome (extractJobDetails (pageWithContainer threeChildren)) =
      inr (Some {| description := "Responsibilities: code" +:+ LF +:+ "Benefits: great";
                   company := "Unknown Company";
                   title := "Job Position" |}).
Proof.
  split; [|split; [|split; [|split; [|split]]]].
  - intros doc d Hhost Hdesc. by rewrite (extractJobDetails_primary doc d).
  - intros doc container Hhost Hdesc Hcontainer Hlines.
    by rewrite (extractJobDetails_fallback doc container).
  - reflexivity.
  - apply paragraphsOf_elem_of.
  - intros container Hflat. unfold paragraphsOf, childParagraphs.
    by rewrite querySelectorAll_flat.
  - reflexivity.
Qed.

Lemma structural_fallback_witness :
  outcome (extractJobDetails (pageWithContainer threeChildren)) =
    inr (Some {| description := join LF (paragraphsOf threeChildren);
                 company := orDefault (firstResolved (pageWithContainer threeChildren)
                                                     companySelectors)
                                      "Unknown Company";
                 title := orDefault (firstResolved (pageWithContainer threeChildren)
                                                   titleSelectors)
                                    "Job Position" |}).
Proof.
  apply (proj1 (proj2 structural_fallback)
           (pageWithContainer threeChildren) threeChildren);
    [reflexivity | reflexivity | reflexivity | discriminate].
Defined.

(** C4, as stated, fails: the lines are not those of the child nodes. On
    this page the description locators find nothing but the blank span,
    which the last of them resolves to, so the primary list yields
    nothing and the fallback runs. The only child of the container is a
    division around one paragraph; the child nodes give one line, the
    extractor returns two. *)
Lemma description_repeats_nested_text :
  querySelector (pageWithContainer nestedParagraph) (attrContains "class" "description")
    = Some blankDecoy
  ∧ trim (textContent blankDecoy) = EmptyString
  ∧ outcome (tryQuerySelectors (pageWithContainer nestedParagraph) descriptionSelectors)
      = inr None
  ∧ join LF (childParagraphs nestedParagraph) = "Build things"
  ∧ outcome (extractJobDetails (pageWithContainer nestedParagraph)) =
      inr (Some {| description := "Build things" +:+ LF +:+ "Build things";
                   company := "Unknown Company";
                   title := "Job Position" |})
  ∧ description
      {| description := "Build things" +:+ LF +:+ "Build things";
         company := "Unknown Company"; title := "Job Position" |}
    ≠ join LF (childParagraphs nestedParagraph).
Proof. repeat split. discriminate. Qed.

End ContentScriptFacts.

(** ** The relay: content script and background *)

Module RelayFacts.

Import ContentScript ContentScriptFacts.

(** The response the background sends for each way [fetch] can settle. *)
Lemma background_onMessage_eq (w : World) (details : JobDetails) :
  Background.onMessage w "analyzeJob" details =
    MkJs [ StorageGet;
           Fetch {| requestDetails := details;
                    requestSkills := Background.storedOrEmpty (storage w) |};
           SendResponse Runtime.Background
             match fetchOutcome w with
             | FetchFailed m =>
                 {| success := Some false; data := None; error := Some m |}
             | FetchResponded r =>
                 match body r with
                 | BodyJson v =>
                     {| success := Some true; data := Some v; error := None |}
                 | BodyMalformed m =>
                     {| success := Some false; data := None; error := Some m |}
                 end
             end ]
         (inr (Some true)).
Proof.
  unfold Background.onMessage, Background.fetch. simpl.
  destruct (fetchOutcome w) as [m|[st [v|m]]]; reflexivity.
Qed.

(** C2, amended. Whatever the status of the response, the background
    sends exactly one final response, decided by how the fetch settles
    and by the body alone: a failed fetch and a body that is not JSON
    give success false with the message of the failure as error text; a
    body that is JSON gives success true with the parsed body as data.
    Hence success true is sent exactly for the responses with a
    well-formed JSON body. *)
Theorem final_response_by_body (w : World) (details : JobDetails) :
  responsesOf Runtime.Background
    (trace (Background.onMessage w "analyzeJob" details)) =
    [ match fetchOutcome w with
      | FetchFailed m =>
          {| success := Some false; data := None; error := Some m |}
      | FetchResponded r =>
          match body r with
          | BodyJson v =>
              {| success := Some true; data := Some v; error := None |}
          | BodyMalformed m =>
              {| success := Some false; data := None; error := Some m |}
          end
      end ]
  ∧ ((∃ r, r ∈ responsesOf Runtime.Background
               (trace (Background.onMessage w "analyzeJob" details))
           ∧ success r = Some true)
     ↔ ∃ response v, fetchOutcome w = FetchResponded response
                     ∧ body response = BodyJson v).
Proof.
  rewrite background_onMessage_eq. simpl. split; [done|]. split.
  - intros (r & Hr & Hsuccess). apply list_elem_of_singleton in Hr. subst r.
    destruct (fetchOutcome w) as [m|[st [v|m]]]; try discriminate Hsuccess.
    by exists {| status := st; body := BodyJson v |}, v.
  - intros (response & v & -> & Hbody). rewrite Hbody.
    eexists. split; [apply list_elem_of_singleton; reflexivity | done].
Qed.

(** C2, as stated, fails: a response with status 500 and a JSON body is
    relayed with success true and its body as data. *)
Lemma server_error_relayed_as_success :
  (∃ response, fetchOutcome Scenarios.serverError = FetchResponded response
               ∧ is2xx response = false)
  ∧ responsesOf Runtime.Background
      (trace (Background.onMessage Scenarios.serverError "analyzeJob"
                {| description := "d"; company := "c"; title := "t" |})) =
      [ {| success := Some true;
           data := Some (JObj [("detail", JStr "Internal Server Error")]);
           error := None |} ].
Proof. split; [eexists; split; reflexivity | reflexivity]. Qed.

Lemma queries_only (selectors : list string) :
  Forall (λ e, isQuery e = true) (QuerySelector <$> selectors).
Proof. apply Forall_fmap, Forall_true. done. Qed.

(** The extractor never throws and does nothing but query the document. *)
Lemma extractJobDetails_queries (doc : Document) :
  ∃ queries result,
    extractJobDetails doc = MkJs queries (inr result)
    ∧ Forall (λ e, isQuery e = true) queries.
Proof.
  unfold extractJobDetails.
  destruct (includes (hostname doc) "linkedin.com");
    [|by exists [], None].
  rewrite !tryQuerySelectors_eq. unfold nestedDescription.
  pose proof (queries_only (triedSelectors doc descriptionSelectors)) as Hd.
  pose proof (queries_only (triedSelectors doc companySelectors)) as Hc.
  pose proof (queries_only (triedSelectors doc titleSelectors)) as Ht.
  revert Hd Hc Ht.
  generalize (QuerySelector <$> triedSelectors doc descriptionSelectors) as qd.
  generalize (QuerySelector <$> triedSelectors doc companySelectors) as qc.
  generalize (QuerySelector <$> triedSelectors doc titleSelectors) as qt.
  generalize (firstResolved doc descriptionSelectors) as fd.
  generalize (firstResolved doc companySelectors) as fc.
  generalize (firstResolved doc titleSelectors) as ft.
  intros ft fc fd qt qc qd Hd Hc Ht.
  assert (∀ extra, Forall (λ e, isQuery e = true) extra →
                   Forall (λ e, isQuery e = true) (qd ++ qc ++ qt ++ extra))
    as Hall by (intros; by repeat apply Forall_app_2).
  destruct fd as [[|a d]|], fc as [[|b c]|];
    destruct (querySelector doc ".jobs-description") as [container|];
    try destruct (paragraphsOf container) as [|line lines];
    unfold bind; simpl;
    (eexists _, _; split; [reflexivity | apply Hall; by repeat constructor]).
Qed.

Lemma responsesOf_queries (who : Context) (queries : list Event) :
  Forall (λ e, isQuery e = true) queries → responsesOf who queries = [].
Proof.
  intros Hq. apply responsesOf_none. eapply Forall_impl; [exact Hq|].
  intros e He s r ->. discriminate He.
Qed.

#[local] Arguments relayCallback : simpl never.

(** What the relay callback answers to each response of the background. *)
Lemma relayCallback_background (r : Response) :
  carriesData r ∨ carriesError r →
  ∃ r', relayCallback None (Some r) = MkJs [SendResponse ContentScript r'] (inr tt)
        ∧ (carriesData r' ∨ carriesError r').
Proof.
  intros Hr. unfold relayCallback.
  destruct (truthyText (error r)) eqn:Herr.
  - eexists. split; [reflexivity|]. right. unfold carriesError. simpl.
    destruct (error r); [|discriminate Herr]. by repeat split.
  - by exists r.
Qed.

Lemma background_onMessage_once (w : World) (details : JobDetails) :
  ∃ r, responsesOf Runtime.Background
         (trace (Background.onMessage w "analyzeJob" details)) = [r]
       ∧ (carriesData r ∨ carriesError r).
Proof.
  rewrite background_onMessage_eq. simpl.
  eexists. split; [reflexivity|].
  destruct (fetchOutcome w) as [m|[st [v|m]]]; simpl;
    [right | left | right]; unfold carriesData, carriesError; simpl;
    by repeat split.
Qed.

Lemma content_onMessage_once (w : World) (doc : Document) :
  (∃ r, responsesOf ContentScript (trace (ContentScript.onMessage w doc "analyze")) = [r]
        ∧ (carriesData r ∨ carriesError r))
  ∧ ∃ returned, outcome (ContentScript.onMessage w doc "analyze") = inr (Some returned).
Proof.
  unfold ContentScript.onMessage. simpl.
  destruct (extractJobDetails_queries doc) as (queries & result & -> & Hq).
  apply (responsesOf_queries ContentScript) in Hq.
  destruct result as [details|].
  - rewrite bind_value. unfold runtimeSendMessage.
    destruct (background w) as [|m|].
    + destruct (background_onMessage_once w details) as (r & Hr & Hkind).
      rewrite background_onMessage_eq in *. simpl in Hr.
      match goal with
      | |- context [SendResponse Runtime.Background ?x] => set (sent := x) in *
      end.
      injection Hr as Hr. clearbody sent. subst sent.
      destruct (relayCallback_background r Hkind) as (r' & Hrelay & Hkind').
      unfold bind. simpl. rewrite Hrelay. simpl.
      rewrite responsesOf_app, Hq. simpl. eauto.
    + unfold bind, relayCallback. simpl. rewrite responsesOf_app, Hq. simpl.
      split; [|eauto]. eexists. split; [reflexivity|].
      right. unfold carriesError. simpl. by repeat split.
    + unfold bind, relayCallback. simpl. rewrite responsesOf_app, Hq. simpl.
      split; [|eauto]. eexists. split; [reflexivity|].
      right. unfold carriesError. simpl. by repeat split.
  - unfold bind. simpl. rewrite responsesOf_app, Hq. simpl.
    split; [|eauto]. eexists. split; [reflexivity|].
    right. unfold carriesError. simpl. by repeat split.
Qed.

Import Popup.

(** C5. On every path of the relay exactly one response is sent. The
    content script, asked to analyze, calls its sendResponse exactly once,
    whether extraction fails, the runtime reports an error, the background
    stays silent, the service fails or the service succeeds; the
    background, asked to analyze a job, calls its sendResponse exactly
    once however the fetch settles. Each of these responses either
    reports success with the analysis data or carries an error text, and
    neither listener throws. The popup that triggered the cycle on a jobs
    page with a listening content script receives that one response in
    its callback, after the relay has run. *)
Theorem exactly_one_response :
  (∀ (w : World) (doc : Document),
     (∃ r, responsesOf ContentScript (trace (ContentScript.onMessage w doc "analyze")) = [r]
           ∧ (carriesData r ∨ carriesError r))
     ∧ ∃ returned, outcome (ContentScript.onMessage w doc "analyze") = inr (Some returned))
  ∧ (∀ (w : World) (details : JobDetails),
       (∃ r, responsesOf Runtime.Background
               (trace (Background.onMessage w "analyzeJob" details)) = [r]
             ∧ (carriesData r ∨ carriesError r))
       ∧ outcome (Background.onMessage w "analyzeJob" details) = inr (Some true))
  ∧ (∀ (w : World) (userSkills : list string) (doc : Document),
       onJobsPage (tabs w) = true →
       page w = PageListens doc →
       ∃ tab r,
         responsesOf ContentScript (trace (ContentScript.onMessage w doc "analyze")) = [r]
         ∧ trace (analyzeClick w userSkills) =
             [ClearError; TabsQuery; TabsSendMessage tab]
             ++ trace (ContentScript.onMessage w doc "analyze")
             ++ trace (onResponse userSkills None (Some r))).
Proof.
  split; [|split].
  - apply content_onMessage_once.
  - intros w details. split; [apply background_onMessage_once|].
    by rewrite background_onMessage_eq.
  - intros w userSkills doc Hguard Hpage.
    destruct (content_onMessage_once w doc) as [(r & Hr & _) (returned & Hout)].
    eexists _, r. split; [done|].
    unfold analyzeClick, tabsSendMessage. rewrite Hguard, Hpage. simpl.
    do 3 f_equal. by rewrite trace_bind, Hout, Hr.
Qed.

Lemma exactly_one_response_witness :
  ∃ tab r,
    responsesOf ContentScript
      (trace (ContentScript.onMessage Scenarios.serverError Scenarios.jobPage "analyze")) = [r]
    ∧ trace (analyzeClick Scenarios.serverError ["python"]) =
        [ClearError; TabsQuery; TabsSendMessage tab]
        ++ trace (ContentScript.onMessage Scenarios.serverError Scenarios.jobPage "analyze")
        ++ trace (onResponse ["python"] None (Some r)).
Proof.
  apply (proj2 (proj2 exactly_one_response)
           Scenarios.serverError ["python"] Scenarios.jobPage);
    reflexivity.
Defined.

Lemma analyzeClick_off_jobs_page (w : World) (userSkills : list string) :
  onJobsPage (tabs w) = false →
  analyzeClick w userSkills =
    MkJs [ClearError; TabsQuery;
          ShowError "Please navigate to a LinkedIn job posting first."]
         (inr tt).
Proof. intros Hguard. unfold analyzeClick. by rewrite Hguard. Qed.

(** C8. When the URL of the active tab is missing or does not contain
    linkedin.com/jobs, the analyze click clears the old error, reads the
    tabs and shows the navigation error, and does nothing else: no message
    to the page, no locator query, no request to the service. The
    extractor, on a host name that does not contain linkedin.com, returns
    absent without a single query. And whenever the page that answers has
    such a host name, the whole cycle issues no request to the service and
    no locator query, also when the URL check let the click through. *)
Theorem host_mismatch_stops_cycle :
  (∀ (w : World) (userSkills : list string),
     onJobsPage (tabs w) = false →
     analyzeClick w userSkills =
       MkJs [ClearError; TabsQuery;
             ShowError "Please navigate to a LinkedIn job posting first."]
            (inr tt))
  ∧ (∀ doc : Document,
       includes (hostname doc) "linkedin.com" = false →
       extractJobDetails doc = MkJs [] (inr None))
  ∧ (∀ (w : World) (userSkills : list string) (doc : Document),
       page w = PageListens doc →
       includes (hostname doc) "linkedin.com" = false →
       List.filter isFetch (trace (analyzeClick w userSkills)) = []
       ∧ List.filter isQuery (trace (analyzeClick w userSkills)) = []).
Proof.
  split; [|split].
  - apply analyzeClick_off_jobs_page.
  - apply extractJobDetails_other_host.
  - intros w userSkills doc Hpage Hhost.
    destruct (onJobsPage (tabs w)) eqn:Hguard.
    + unfold analyzeClick, tabsSendMessage, ContentScript.onMessage.
      rewrite Hguard, Hpage. simpl.
      by rewrite (extractJobDetails_other_host doc Hhost).
    + by rewrite analyzeClick_off_jobs_page.
Qed.

Lemma host_mismatch_stops_cycle_witness :
  analyzeClick Scenarios.offSite ["python"] =
    MkJs [ClearError; TabsQuery;
          ShowError "Please navigate to a LinkedIn job posting first."]
         (inr tt).
Proof.
  apply (proj1 host_mismatch_stops_cycle Scenarios.offSite ["python"]).
  reflexivity.
Defined.

End RelayFacts.

(** ** The stored profile *)

Module ProfileFacts.

Import Popup.

Lemma is_lowercase_cons (c : ascii) (s : string) :
  is_lowercase (String c s) ↔ lower_char c = c ∧ is_lowercase s.
Proof.
  unfold is_lowercase. simpl. split.
  - intros [= Hc Hs]. done.
  - intros [-> ->]. done.
Qed.

Lemma is_lowercase_toLowerCase (s : string) : is_lowercase (toLowerCase s).
Proof. apply toLowerCase_idemp. Qed.

Lemma is_lowercase_trimStart (s : string) :
  is_lowercase s → is_lowercase (trimStart s).
Proof.
  induction s as [|c s IH]; [done|]. simpl. intros Hs.
  destruct (is_white c); [|done]. apply IH. by apply is_lowercase_cons in Hs as [_ ?].
Qed.

Lemma is_lowercase_trimEnd (s : string) :
  is_lowercase s → is_lowercase (trimEnd s).
Proof.
  induction s as [|c s IH]; [done|]. simpl.
  intros [Hc Hs]%is_lowercase_cons. specialize (IH Hs).
  destruct (trimEnd s) as [|d t].
  - destruct (is_white c); [done|]. by apply is_lowercase_cons.
  - by apply is_lowercase_cons.
Qed.

Lemma is_lowercase_trim (s : string) : is_lowercase s → is_lowercase (trim s).
Proof. intros Hs. by apply is_lowercase_trimEnd, is_lowercase_trimStart. Qed.

Lemma is_lowercase_split (sep : ascii) (s : string) :
  is_lowercase s → Forall is_lowercase (split sep s).
Proof.
  induction s as [|c s IH]; [by repeat constructor|]. simpl.
  intros [Hc Hs]%is_lowercase_cons. specialize (IH Hs).
  destruct (Ascii.eqb c sep); [by constructor|].
  destruct (split sep s) as [|p ps].
  { constructor; [by apply is_lowercase_cons | constructor]. }
  apply Forall_cons in IH as [Hp Hps].
  constructor; [by apply is_lowercase_cons | done].
Qed.

Lemma startsClean_trimStart (s : string) : startsClean (trimStart s).
Proof.
  induction s as [|c s IH]; [done|]. simpl.
  by destruct (is_white c) eqn:Hc.
Qed.

Lemma trimStart_clean (s : string) : startsClean s → trimStart s = s.
Proof. destruct s as [|c s]; [done|]. simpl. by intros ->. Qed.

Lemma startsClean_trimEnd (s : string) : startsClean s → startsClean (trimEnd s).
Proof.
  destruct s as [|c s]; [done|]. simpl. intros Hc.
  destruct (trimEnd s); [by rewrite Hc | done].
Qed.

Lemma trimEnd_idemp (s : string) : trimEnd (trimEnd s) = trimEnd s.
Proof.
  induction s as [|c s IH]; [done|]. simpl.
  destruct (trimEnd s) as [|d t] eqn:Ht.
  - destruct (is_white c) eqn:Hc; [done|]. simpl. by rewrite Hc.
  - change (trimEnd (String c (String d t))) with
      (match trimEnd (String d t) with
       | EmptyString => if is_white c then EmptyString else String c EmptyString
       | u => String c u
       end).
    by rewrite IH.
Qed.

Lemma trim_idemp (s : string) : trim (trim s) = trim s.
Proof.
  unfold trim.
  rewrite (trimStart_clean (trimEnd (trimStart s)))
    by apply startsClean_trimEnd, startsClean_trimStart.
  apply trimEnd_idemp.
Qed.

(** Every entry of an input text is in lower case, trimmed and not empty. *)
Lemma entriesOf_shape (inputValue : string) :
  Forall (λ e, is_lowercase e ∧ trim e = e ∧ e ≠ EmptyString) (entriesOf inputValue).
Proof.
  unfold entriesOf, newSkillsOf. apply Forall_forall. intros e He.
  apply list_elem_of_In, filter_In in He as [He Hlen].
  apply in_map_iff in He as (piece & <- & Hpiece).
  split; [|split].
  - apply is_lowercase_trim.
    pose proof (is_lowercase_split "," _ (is_lowercase_toLowerCase (trim inputValue)))
      as Hall.
    rewrite Forall_forall in Hall. by apply Hall, list_elem_of_In.
  - apply trim_idemp.
  - intros Hempty. rewrite Hempty in Hlen. discriminate Hlen.
Qed.

Lemma firstOccurrences_ext (seen1 seen2 newSkills : list string) :
  (∀ x, x ∈ seen1 ↔ x ∈ seen2) →
  firstOccurrences seen1 newSkills = firstOccurrences seen2 newSkills.
Proof.
  revert seen1 seen2. induction newSkills as [|skill rest IH]; [done|].
  intros seen1 seen2 Hsame. simpl.
  assert (arrayIncludes seen1 skill = arrayIncludes seen2 skill) as ->.
  { destruct (arrayIncludes seen2 skill) eqn:E.
    - apply arrayIncludes_spec, Hsame, arrayIncludes_spec, E.
    - apply arrayIncludes_false. intros Hin%Hsame.
      by apply arrayIncludes_false in E. }
  destruct (arrayIncludes seen2 skill); [by apply IH|].
  f_equal. apply IH. intros x. rewrite !elem_of_cons. by rewrite Hsame.
Qed.

(** The push loop appends the first occurrences of the skills that are new. *)
Lemma pushUnique_firstOccurrences (userSkills newSkills : list string) :
  pushUnique userSkills newSkills =
    userSkills ++ firstOccurrences userSkills newSkills.
Proof.
  unfold pushUnique. revert userSkills.
  induction newSkills as [|skill rest IH]; intros userSkills; simpl.
  - by rewrite app_nil_r.
  - rewrite IH. destruct (arrayIncludes userSkills skill); [done|].
    rewrite <- app_assoc. simpl. do 2 f_equal.
    apply firstOccurrences_ext. intros x.
    rewrite elem_of_app, !elem_of_cons, elem_of_nil. tauto.
Qed.

Lemma firstOccurrences_elem_of (seen newSkills : list string) (e : string) :
  e ∈ firstOccurrences seen newSkills ↔ e ∈ newSkills ∧ e ∉ seen.
Proof.
  revert seen. induction newSkills as [|skill rest IH]; intros seen; simpl.
  - rewrite elem_of_nil. tauto.
  - destruct (arrayIncludes seen skill) eqn:E.
    + apply arrayIncludes_spec in E. rewrite IH, elem_of_cons.
      split; [tauto|]. intros [[->|?] ?]; tauto.
    + apply arrayIncludes_false in E. rewrite !elem_of_cons, IH, elem_of_cons.
      split.
      * intros [->|[? ?]]; [tauto|]. split; [tauto|]. tauto.
      * intros [[->|?] ?]; [tauto|].
        destruct (decide (e = skill)) as [->|Hne]; tauto.
Qed.

Lemma firstOccurrences_NoDup (seen newSkills : list string) :
  NoDup (firstOccurrences seen newSkills).
Proof.
  revert seen. induction newSkills as [|skill rest IH]; intros seen; simpl.
  - constructor.
  - destruct (arrayIncludes seen skill); [apply IH|].
    constructor; [|apply IH].
    rewrite firstOccurrences_elem_of, elem_of_cons. tauto.
Qed.

Lemma firstOccurrences_sublist (seen newSkills : list string) :
  firstOccurrences seen newSkills `sublist_of` newSkills.
Proof.
  revert seen. induction newSkills as [|skill rest IH]; intros seen; simpl.
  - constructor.
  - destruct (arrayIncludes seen skill).
    + by apply sublist_cons.
    + by apply sublist_skip.
Qed.

Lemma lowercaseUnique_pushUnique (userSkills newSkills : list string) :
  lowercaseUnique userSkills →
  Forall is_lowercase newSkills →
  lowercaseUnique (pushUnique userSkills newSkills).
Proof.
  intros [Hnodup Hlower] Hnew. rewrite pushUnique_firstOccurrences. split.
  - apply NoDup_app. split; [done|]. split; [|apply firstOccurrences_NoDup].
    intros x Hx. rewrite firstOccurrences_elem_of. tauto.
  - apply Forall_app. split; [done|].
    rewrite Forall_forall in Hnew. apply Forall_forall. intros x Hx.
    apply Hnew. by apply firstOccurrences_elem_of in Hx as [? _].
Qed.

Lemma removeSkill_filter (skillToRemove : string) (st : PopupState) :
  userSkills (removeSkill skillToRemove st) =
    filter (λ s, s ≠ skillToRemove) (userSkills st).
Proof.
  unfold removeSkill. simpl. apply List_filter_decide. intros s.
  rewrite negb_true_iff. split.
  - intros Hneq ->. by rewrite String.eqb_refl in Hneq.
  - intros Hne. by apply String.eqb_neq.
Qed.

Lemma lowercaseUnique_removeSkill (skillToRemove : string) (st : PopupState) :
  lowercaseUnique (userSkills st) →
  lowercaseUnique (userSkills (removeSkill skillToRemove st)).
Proof.
  intros [Hnodup Hlower]. rewrite removeSkill_filter. split.
  - by apply NoDup_filter.
  - rewrite Forall_forall in Hlower. apply Forall_forall. intros x Hx.
    apply Hlower. by apply list_elem_of_filter in Hx as [_ ?].
Qed.

Lemma consistent_step (a : Action) (st : PopupState) :
  consistent st → consistent (step a st).
Proof.
  intros (Hmem & Hstored & Hsub). destruct a as [inputValue|skillToRemove| |]; simpl.
  - unfold addSkills.
    destruct (nonEmpty (toLowerCase (trim inputValue))); simpl; [|done].
    assert (lowercaseUnique
              (pushUnique (userSkills st)
                 (newSkillsOf (toLowerCase (trim inputValue))))) as Hnew.
    { apply lowercaseUnique_pushUnique; [done|].
      eapply Forall_impl; [apply (entriesOf_shape inputValue)|]. by intros e [? _]. }
    split; [done|]. split.
    + by intros stored [= <-].
    + intros skill Hskill. eauto.
  - split; [by apply lowercaseUnique_removeSkill|]. split; [done|].
    intros skill Hskill. apply Hsub.
    rewrite removeSkill_filter in Hskill.
    by apply list_elem_of_filter in Hskill as [_ ?].
  - split; [done|]. split.
    + by intros stored [= <-].
    + intros skill Hskill. eauto.
  - unfold openPopup, consistent. simpl.
    destruct (storedUserSkills (store st)) as [stored|] eqn:Hst.
    + split; [by apply Hstored|]. split; [done|]. eauto.
    + split; [split; constructor|]. split; [done|].
      intros skill Hskill. by apply elem_of_nil in Hskill.
Qed.

Lemma reachable_consistent (st : PopupState) : reachable st → consistent st.
Proof.
  induction 1 as [|a st _ IH].
  - split; [split; constructor|]. split; [done|].
    intros skill Hskill. by apply elem_of_nil in Hskill.
  - by apply consistent_step.
Qed.

(** Skills that are unique and in lower case are unique without regard
    to case. *)
Lemma lowercaseUnique_case_insensitive (skills : list string) :
  lowercaseUnique skills → NoDup (toLowerCase <$> skills).
Proof.
  intros [Hnodup Hlower].
  replace (toLowerCase <$> skills) with skills; [done|].
  induction Hlower as [|s skills Hs _ IH]; [done|].
  rewrite fmap_cons, Hs. f_equal. apply IH. by apply NoDup_cons in Hnodup as [_ ?].
Qed.

Lemma addSkills_userSkills (inputValue : string) (st : PopupState) :
  userSkills (addSkills inputValue st) =
    userSkills st ++ firstOccurrences (userSkills st) (entriesOf inputValue).
Proof.
  unfold addSkills, entriesOf.
  destruct (toLowerCase (trim inputValue)) as [|c text]; simpl.
  - by rewrite app_nil_r.
  - apply pushUnique_firstOccurrences.
Qed.

(** C7. For a profile reached from a fresh installation and any input
    text, adding keeps the skills that were there, in place, and appends
    the entries of the text that were not there, each at its first
    occurrence; afterwards every entry of the text is in the list and the
    list has no duplicates, so each entry occurs exactly once; an entry
    that equals a present skill up to case is not added again; when the
    text is not blank the list is saved as it is. Every entry is in lower
    case, trimmed and not empty. Adding Python, SQL, python to the empty
    profile gives python, sql, in memory and in the store. Every reachable
    profile, so after any add and any remove, is unique without regard to
    case, in memory and in the store. *)
Theorem addSkills_unique_in_order :
  (∀ (st : PopupState) (inputValue : string),
     reachable st →
     userSkills (addSkills inputValue st) =
       userSkills st ++ firstOccurrences (userSkills st) (entriesOf inputValue)
     ∧ NoDup (userSkills (addSkills inputValue st))
     ∧ (∀ e, e ∈ entriesOf inputValue → e ∈ userSkills (addSkills inputValue st))
     ∧ (∀ e u, u ∈ userSkills st → toLowerCase u = toLowerCase e →
               e ∉ firstOccurrences (userSkills st) (entriesOf inputValue))
     ∧ (nonEmpty (toLowerCase (trim inputValue)) = true →
        storedUserSkills (store (addSkills inputValue st)) =
          Some (userSkills (addSkills inputValue st))))
  ∧ (∀ (seen newSkills : list string),
       NoDup (firstOccurrences seen newSkills)
       ∧ firstOccurrences seen newSkills `sublist_of` newSkills
       ∧ ∀ e, e ∈ firstOccurrences seen newSkills ↔ e ∈ newSkills ∧ e ∉ seen)
  ∧ (∀ inputValue : string,
       Forall (λ e, is_lowercase e ∧ trim e = e ∧ e ≠ EmptyString)
              (entriesOf inputValue))
  ∧ (userSkills (addSkills "Python, SQL, python" initial) = ["python"; "sql"]
     ∧ storedUserSkills (store (addSkills "Python, SQL, python" initial)) =
         Some ["python"; "sql"])
  ∧ (∀ st : PopupState,
       reachable st →
       NoDup (toLowerCase <$> userSkills st)
       ∧ ∀ stored, storedUserSkills (store st) = Some stored →
                   NoDup (toLowerCase <$> stored)).
Proof.
  split; [|split; [|split; [|split]]].
  - intros st inputValue Hreach.
    pose proof (reachable_consistent _ Hreach) as ([Hnodup Hlower] & _ & _).
    pose proof (reachable_consistent _ (reachable_step (AddSkills inputValue) _ Hreach))
      as ([Hnodup' _] & _ & _). simpl in Hnodup'.
    split; [apply addSkills_userSkills|]. split; [done|]. split; [|split].
    + intros e He. rewrite addSkills_userSkills, elem_of_app.
      destruct (decide (e ∈ userSkills st)) as [Hin|Hout]; [by left|].
      right. by apply firstOccurrences_elem_of.
    + intros e u Hu Hcase [He Hout]%firstOccurrences_elem_of. apply Hout.
      pose proof (entriesOf_shape inputValue) as Hshape.
      rewrite Forall_forall in Hshape, Hlower.
      destruct (Hshape e He) as (Hle & _). specialize (Hlower u Hu).
      unfold is_lowercase in *. by rewrite <- Hle, <- Hcase, Hlower.
    + intros Htext. unfold addSkills. by rewrite Htext.
  - intros seen newSkills. split; [apply firstOccurrences_NoDup|].
    split; [apply firstOccurrences_sublist|]. apply firstOccurrences_elem_of.
  - apply entriesOf_shape.
  - split; reflexivity.
  - intros st Hreach.
    pose proof (reachable_consistent _ Hreach) as (Hmem & Hstored & _).
    split; [by apply lowercaseUnique_case_insensitive|].
    intros stored Hst. by apply lowercaseUnique_case_insensitive, Hstored.
Qed.

Lemma addSkills_unique_in_order_witness :
  userSkills (addSkills "Go, python" (addSkills "Python, SQL" initial)) =
    ["python"; "sql"] ++ firstOccurrences ["python"; "sql"] (entriesOf "Go, python").
Proof.
  apply (proj1 addSkills_unique_in_order
           (addSkills "Python, SQL" initial) "Go, python").
  apply (reachable_step (AddSkills "Python, SQL") initial), reachable_initial.
Defined.

(** C9. Removing a skill changes the list in memory only: the persisted
    profile, both keys, is what it was, and a popup opened afterwards
    loads the same list as if nothing had been removed; for a reachable
    profile the removed skill is gone from memory and back after that
    load. The store changes only under an add or a save of the profile. *)
Theorem removeSkill_not_persisted :
  (∀ (skillToRemove : string) (st : PopupState),
     store (removeSkill skillToRemove st) = store st
     ∧ openPopup (removeSkill skillToRemove st) = openPopup st)
  ∧ (∀ (skillToRemove : string) (st : PopupState),
       reachable st →
       skillToRemove ∈ userSkills st →
       (skillToRemove ∉ userSkills (removeSkill skillToRemove st))
       ∧ skillToRemove ∈ userSkills (openPopup (removeSkill skillToRemove st)))
  ∧ (∀ (a : Action) (st : PopupState),
       store (step a st) ≠ store st →
       (∃ inputValue, a = AddSkills inputValue) ∨ a = SaveProfile).
Proof.
  split; [|split].
  - intros skillToRemove st. by split.
  - intros skillToRemove st Hreach Hin. split.
    + rewrite removeSkill_filter, list_elem_of_filter. tauto.
    + destruct (reachable_consistent _ Hreach) as (_ & _ & Hsub).
      destruct (Hsub _ Hin) as (stored & Hst & Hstored).
      unfold openPopup. simpl. by rewrite Hst.
  - intros [inputValue|skillToRemove| |] st Hchanged; simpl in Hchanged;
      [left; by exists inputValue | done | by right | done].
Qed.

Lemma removeSkill_not_persisted_witness :
  ("sql" ∉ userSkills (removeSkill "sql" (addSkills "Python, SQL" initial)))
  ∧ "sql" ∈ userSkills (openPopup (removeSkill "sql" (addSkills "Python, SQL" initial))).
Proof.
  apply (proj1 (proj2 removeSkill_not_persisted)
           "sql" (addSkills "Python, SQL" initial)).
  - apply (reachable_step (AddSkills "Python, SQL") initial), reachable_initial.
  - vm_compute. right. left.
Defined.

End ProfileFacts.

(** ** More on the extractor *)

Module ExtractorFacts.

Import ContentScript ContentScriptFacts RelayFacts.

Lemma firstResolved_app (doc : Document) (l1 l2 : list string) :
  firstResolved doc (l1 ++ l2) =
    match firstResolved doc l1 with
    | Some v => Some v
    | None => firstResolved doc l2
    end.
Proof.
  induction l1 as [|s l1 IH]; [done|]. simpl.
  by destruct (resolvedText doc s).
Qed.

Lemma triedSelectors_app (doc : Document) (l1 l2 : list string) :
  triedSelectors doc (l1 ++ l2) =
    match firstResolved doc l1 with
    | Some _ => triedSelectors doc l1
    | None => triedSelectors doc l1 ++ triedSelectors doc l2
    end.
Proof.
  induction l1 as [|s l1 IH]; [done|]. simpl.
  destruct (resolvedText doc s); [done|]. rewrite IH.
  by destruct (firstResolved doc l1).
Qed.

(** X1. Fallback locators appended to a list are consulted only when the
    list itself fails; a list that succeeds gives the same queries and the
    same text whatever is appended to it. *)
Theorem appended_locators_are_fallbacks (doc : Document) (l1 l2 : list string) :
  tryQuerySelectors doc (l1 ++ l2) =
    match outcome (tryQuerySelectors doc l1) with
    | inr (Some v) => tryQuerySelectors doc l1
    | _ =>
        MkJs (trace (tryQuerySelectors doc l1) ++ trace (tryQuerySelectors doc l2))
             (outcome (tryQuerySelectors doc l2))
    end.
Proof.
  rewrite !tryQuerySelectors_eq. simpl.
  rewrite firstResolved_app, triedSelectors_app.
  destruct (firstResolved doc l1); [done|]. by rewrite fmap_app.
Qed.

Lemma triedSelectors_length (doc : Document) (selectors : list string) :
  (length (triedSelectors doc selectors) ≤ length selectors)%nat.
Proof.
  induction selectors as [|s rest IH]; [done|]. simpl.
  destruct (resolvedText doc s); simpl; lia.
Qed.

Lemma join_nonEmpty (sep : string) (parts : list string) :
  parts ≠ [] → Forall (λ p, nonEmpty p = true) parts →
  nonEmpty (join sep parts) = true.
Proof.
  intros Hne Hall. destruct Hall as [|p ps Hp _]; [done|].
  destruct p as [|c p]; [done|]. simpl. by destruct ps.
Qed.

Lemma paragraphsOf_nonEmpty (container : Node) :
  Forall (λ p, nonEmpty p = true) (paragraphsOf container).
Proof.
  unfold paragraphsOf. apply Forall_forall. intros p Hp.
  by apply list_elem_of_In, filter_In in Hp as [_ ?].
Qed.

Lemma orDefault_nonEmpty (v : option string) (d : string) :
  nonEmpty d = true → nonEmpty (orDefault v d) = true.
Proof.
  intros Hd. unfold orDefault. destruct v as [s|]; [|done].
  by destruct (nonEmpty s) eqn:Hs.
Qed.

(** Without a primary description and without a line from the container
    the extraction fails, whatever the company and title locators gave. *)
Lemma extractJobDetails_no_description (doc : Document) :
  includes (hostname doc) "linkedin.com" = true →
  firstResolved doc descriptionSelectors = None →
  (querySelector doc ".jobs-description" = None
   ∨ ∃ container, querySelector doc ".jobs-description" = Some container
                  ∧ paragraphsOf container = []) →
  outcome (extractJobDetails doc) = inr None.
Proof.
  intros Hhost Hdesc Hcontainer. unfold extractJobDetails.
  rewrite Hhost, !tryQuerySelectors_eq, Hdesc. unfold nestedDescription.
  abstract_fields doc.
  destruct Hcontainer as [-> | (container & -> & ->)];
    unfold bind; simpl; by destruct fc.
Qed.

(** X2. The extraction succeeds exactly on a recognised host when either a
    primary description and a company were found, or no primary
    description was found and the container gave at least one line. A
    company alone is not enough, and a primary description without a
    company fails even when the container has text. *)
Theorem extraction_succeeds_iff (doc : Document) :
  (∃ details, outcome (extractJobDetails doc) = inr (Some details)) ↔
  includes (hostname doc) "linkedin.com" = true
  ∧ ((∃ d c, firstResolved doc descriptionSelectors = Some d
             ∧ firstResolved doc companySelectors = Some c)
     ∨ (firstResolved doc descriptionSelectors = None
        ∧ ∃ container, querySelector doc ".jobs-description" = Some container
                       ∧ paragraphsOf container ≠ [])).
Proof.
  destruct (includes (hostname doc) "linkedin.com") eqn:Hhost.
  2: { rewrite (extractJobDetails_other_host doc Hhost). cbn [outcome].
       split; [by intros [? ?] | by intros [? _]]. }
  destruct (firstResolved doc descriptionSelectors) as [d|] eqn:Hdesc.
  - rewrite (extractJobDetails_primary doc d Hhost Hdesc). cbn [outcome].
    destruct (firstResolved doc companySelectors) as [c|] eqn:Hcomp.
    + split; [|eauto]. intros _. split; [done|]. left. eauto.
    + split; [by intros [? ?]|].
      intros [_ [(? & ? & _ & ?) | [? _]]]; done.
  - destruct (querySelector doc ".jobs-description") as [container|] eqn:Hc.
    + destruct (paragraphsOf container) as [|line lines] eqn:Hp.
      * rewrite (extractJobDetails_no_description doc Hhost Hdesc)
          by (right; eauto).
        split; [by intros [? ?]|].
        intros [_ [(? & ? & ? & _) | [_ (c' & [= <-] & Hne)]]]; [done|].
        by rewrite Hp in Hne.
      * rewrite (extractJobDetails_fallback doc container Hhost Hdesc Hc)
          by (by rewrite Hp).
        split; [|eauto]. intros _. split; [done|]. right. split; [done|].
        exists container. by rewrite Hp.
    + rewrite (extractJobDetails_no_description doc Hhost Hdesc) by (by left).
      split; [by intros [? ?]|].
      intros [_ [(? & ? & ? & _) | [_ (c' & ? & _)]]]; done.
Qed.

(** X3. Whatever the page, the details that the extractor returns have a
    description, a company and a title that are not empty. *)
Theorem extracted_details_not_empty (doc : Document) (details : JobDetails) :
  outcome (extractJobDetails doc) = inr (Some details) →
  nonEmpty (description details) = true
  ∧ nonEmpty (company details) = true
  ∧ nonEmpty (title details) = true.
Proof.
  destruct (includes (hostname doc) "linkedin.com") eqn:Hhost.
  2: { by rewrite (extractJobDetails_other_host doc Hhost). }
  destruct (firstResolved doc descriptionSelectors) as [d|] eqn:Hdesc.
  - rewrite (extractJobDetails_primary doc d Hhost Hdesc). cbn [outcome].
    destruct (firstResolved doc companySelectors) as [c|] eqn:Hcomp; [|done].
    intros [= <-]. cbn [description company title].
    split; [by eapply firstResolved_nonEmpty|].
    split; [by eapply firstResolved_nonEmpty | by apply orDefault_nonEmpty].
  - destruct (querySelector doc ".jobs-description") as [container|] eqn:Hc.
    + destruct (paragraphsOf container) as [|line lines] eqn:Hp.
      * by rewrite (extractJobDetails_no_description doc Hhost Hdesc)
          by (right; eauto).
      * rewrite (extractJobDetails_fallback doc container Hhost Hdesc Hc)
          by (by rewrite Hp).
        cbn [outcome]. intros [= <-]. cbn [description company title].
        split; [|split; by apply orDefault_nonEmpty].
        apply join_nonEmpty; [by rewrite Hp | apply paragraphsOf_nonEmpty].
    + by rewrite (extractJobDetails_no_description doc Hhost Hdesc) by (by left).
Qed.

Lemma extracted_details_not_empty_witness :
  nonEmpty (description {| description := "Write Python and SQL";
                           company := "Acme"; title := "Job Position" |}) = true
  ∧ nonEmpty (company {| description := "Write Python and SQL";
                         company := "Acme"; title := "Job Position" |}) = true
  ∧ nonEmpty (title {| description := "Write Python and SQL";
                       company := "Acme"; title := "Job Position" |}) = true.
Proof.
  apply (extracted_details_not_empty Scenarios.jobPage). reflexivity.
Defined.

(** X4. One extraction makes at most eighteen queries to the document,
    does nothing but query, and never throws. *)
Theorem extraction_queries_bounded (doc : Document) :
  (length (trace (extractJobDetails doc)) ≤ 18)%nat
  ∧ Forall (λ e, isQuery e = true) (trace (extractJobDetails doc))
  ∧ ∃ result, outcome (extractJobDetails doc) = inr result.
Proof.
  split.
  - unfold extractJobDetails.
    destruct (includes (hostname doc) "linkedin.com"); [|simpl; lia].
    rewrite !tryQuerySelectors_eq. unfold nestedDescription.
    pose proof (triedSelectors_length doc descriptionSelectors) as Hd.
    pose proof (triedSelectors_length doc companySelectors) as Hc.
    pose proof (triedSelectors_length doc titleSelectors) as Ht.
    change (length descriptionSelectors) with 7%nat in Hd.
    change (length companySelectors) with 5%nat in Hc.
    change (length titleSelectors) with 4%nat in Ht.
    revert Hd Hc Ht.
    generalize (firstResolved doc descriptionSelectors) as fd.
    abstract_fields doc. intros fd Hd Hc Ht.
    destruct fd as [[|a d]|], fc as [[|b c]|];
      destruct (querySelector doc ".jobs-description") as [container|];
      try destruct (paragraphsOf container) as [|line lines];
      unfold bind; simpl; rewrite ?length_app, ?length_fmap; simpl; lia.
  - destruct (extractJobDetails_queries doc) as (queries & result & -> & Hq).
    split; [done | by exists result].
Qed.

End ExtractorFacts.

(** ** The handler body of the popup, case by case *)

Module HandlerFacts.

Import MatchEngine Popup PopupUi AnalyzeFacts.

Lemma bind_throw {A B} (e : JsError) (k : A → Js B) : bind (throw e) k = throw e.
Proof. reflexivity. Qed.

(** A skills array with an element that is not text stops the map with a
    type error before anything is emitted. *)
Lemma mapToLowerCase_non_text (items : list Json) :
  forallb isText items = false →
  ∃ m, mapToLowerCase items = throw (TypeError m)
       ∧ (m = "Cannot read properties of null (reading 'toLowerCase')"
          ∨ m = "s.toLowerCase is not a function").
Proof.
  induction items as [|item items IH]; [done|].
  destruct item as [|b|n|s|l|o]; simpl; intros Hbad;
    try (eexists; split; [reflexivity | tauto]).
  destruct (IH Hbad) as (m & -> & Hm). exists m. by rewrite bind_throw.
Qed.

Lemma forallb_isText (items : list Json) :
  forallb isText items = true → ∃ names, items = JStr <$> names.
Proof.
  induction items as [|item items IH]; [by exists []|].
  destruct item as [|b|n|s|l|o]; simpl; try done.
  intros Hall. destruct (IH Hall) as (names & ->). by exists (s :: names).
Qed.






(** X7. A skills sequence with any element that is not text, at any
    position, yields exactly one error, built from the type error of the
    lower-casing, and no event of the report. *)
Theorem non_text_skill_blocks_report (userSkills : list string)
    (response : Response) (analysisData : Json) (items : list Json) :
  ContentScript.truthyText (error response) = false →
  data response = Some analysisData →
  truthy (Some analysisData) = true →
  getProp analysisData "skills" = Some (JArr items) →
  forallb isText items = false →
  ∃ m, onResponse userSkills None (Some response) =
         MkJs [ShowError ("Error processing job details: " +:+ m)] (inr tt)
       ∧ (m = "Cannot read properties of null (reading 'toLowerCase')"
          ∨ m = "s.toLowerCase is not a function").
Proof.
  intros Herr Hdata Htruthy Hskills Hbad.
  destruct (mapToLowerCase_non_text items Hbad) as (m & Hmap & Hm).
  exists m. split; [|done].
  rewrite (onResponse_data _ _ _ Herr Hdata Htruthy).
  unfold processAnalysis. rewrite Hskills. cbn [truthy isArray negb orb].
  by rewrite Hmap, bind_throw.
Qed.

Lemma non_text_skill_blocks_report_witness :
  ∃ m, onResponse ["python"] None
         (Some {| success := Some true;
                  data := Some (JObj [("skills", JArr [JStr "Go"; JNull])]);
                  error := None |}) =
         MkJs [ShowError ("Error processing job details: " +:+ m)] (inr tt)
       ∧ (m = "Cannot read properties of null (reading 'toLowerCase')"
          ∨ m = "s.toLowerCase is not a function").
Proof.
  apply (non_text_skill_blocks_report ["python"] _
           (JObj [("skills", JArr [JStr "Go"; JNull])]) [JStr "Go"; JNull]);
    reflexivity.
Defined.

Lemma mapToLowerCase_trace (items : list Json) : trace (mapToLowerCase items) = [].
Proof.
  destruct (forallb isText items) eqn:Hall.
  - destruct (forallb_isText items Hall) as (names & ->).
    by rewrite mapToLowerCase_strings.
  - by destruct (mapToLowerCase_non_text items Hall) as (m & -> & _).
Qed.

(** The popup callback never throws, and it always shows an error or
    starts the report. *)
Lemma onResponse_feedback (userSkills : list string)
    (lastError : option string) (response : option Response) :
  outcome (onResponse userSkills lastError response) = inr tt
  ∧ ∃ e, e ∈ trace (onResponse userSkills lastError response)
         ∧ (isShowError e = true ∨ isReportRender e = true).
Proof.
  unfold onResponse, showError.
  destruct lastError as [m|].
  { split; [done|]. eexists. split; [by left | by left]. }
  destruct response as [response|].
  2: { split; [done|]. eexists. split; [by left | by left]. }
  destruct (ContentScript.truthyText (error response)).
  { split; [done|]. eexists. split; [by left | by left]. }
  destruct (negb (truthy (data response))).
  { split; [done|]. eexists. split; [by left | by left]. }
  generalize (default JNull (data response)) as analysisData. intros analysisData.
  unfold tryCatch.
  destruct (outcome (processAnalysis userSkills analysisData)) as [e|[]] eqn:Hout.
  - split; [done|].
    exists (ShowError ("Error processing job details: " +:+ errorMessage e)).
    split; [|by left]. cbn [trace]. apply elem_of_app. right. by left.
  - split; [done|]. revert Hout. unfold processAnalysis.
    destruct (negb (truthy (getProp analysisData "skills"))
              || negb (isArray (getProp analysisData "skills"))); [done|].
    rewrite outcome_bind, trace_bind, mapToLowerCase_trace.
    destruct (outcome (mapToLowerCase _)) as [e|jobSkills]; [done|].
    intros _. rewrite bind_emit. eexists. split; [by left | by right].
Qed.

End HandlerFacts.

(** ** Whole analysis cycles *)

Module CycleFacts.

Import ContentScript ContentScriptFacts RelayFacts Popup PopupUi
       AnalyzeFacts HandlerFacts.

#[local] Arguments onResponse : simpl never.
#[local] Arguments relayCallback : simpl never.
#[local] Arguments extractJobDetails : simpl never.

(** A click on a jobs page with a listening content script: the events of
    the listener, then the callback on its first response. *)
Lemma analyzeClick_listening (w : World) (userSkills : list string) (doc : Document) :
  onJobsPage (tabs w) = true →
  page w = PageListens doc →
  analyzeClick w userSkills =
    MkJs ([ClearError; TabsQuery; TabsSendMessage (activeTabId w)]
          ++ trace (ContentScript.onMessage w doc "analyze")
          ++ trace (onResponse userSkills None
                      (head (responsesOf ContentScript
                               (trace (ContentScript.onMessage w doc "analyze"))))))
         (outcome (onResponse userSkills None
                     (head (responsesOf ContentScript
                              (trace (ContentScript.onMessage w doc "analyze")))))).
Proof.
  intros Hguard Hpage.
  destruct (content_onMessage_once w doc) as [_ (returned & Hout)].
  unfold analyzeClick, tabsSendMessage, activeTabId. rewrite Hguard, Hpage.
  cbn [negb]. rewrite !bind_emit. cbn [trace outcome].
  rewrite trace_bind, outcome_bind, Hout. reflexivity.
Qed.

Lemma content_onMessage_failed (w : World) (doc : Document) :
  outcome (extractJobDetails doc) = inr None →
  ContentScript.onMessage w doc "analyze" =
    MkJs (trace (extractJobDetails doc)
          ++ [SendResponse ContentScript (errorResponse couldNotFind)])
         (inr (Some false)).
Proof.
  intros Hext. unfold ContentScript.onMessage.
  destruct (extractJobDetails doc) as [queries result].
  cbn [outcome trace] in *. subst result. reflexivity.
Qed.

(** The events of the relay once the details are extracted. *)
Lemma content_onMessage_relayed (w : World) (doc : Document) (details : JobDetails) :
  outcome (extractJobDetails doc) = inr (Some details) →
  ContentScript.onMessage w doc "analyze" =
    MkJs (trace (extractJobDetails doc)
          ++ trace (runtimeSendMessage w details relayCallback))
         (match outcome (runtimeSendMessage w details relayCallback) with
          | inl e => inl e
          | inr _ => inr (Some true)
          end).
Proof.
  intros Hext. unfold ContentScript.onMessage.
  destruct (extractJobDetails doc) as [queries result].
  cbn [outcome trace] in *. subst result.
  change (String.eqb "analyze" "analyze") with true. cbv iota.
  rewrite bind_value. cbv iota beta.
  f_equal.
  - by rewrite trace_bind; destruct (outcome _); rewrite ?app_nil_r.
  - rewrite outcome_bind. by destruct (outcome _).
Qed.

Lemma queries_are_no_relay (events : list Event) :
  Forall (λ e, isQuery e = true) events → List.filter isRelayEvent events = [].
Proof.
  induction 1 as [|e events He _ IH]; [done|]. simpl. rewrite IH.
  by destruct e.
Qed.

Lemma queries_are_no_responses (events : list Event) :
  Forall (λ e, isQuery e = true) events →
  responsesOf ContentScript events = [].
Proof. apply responsesOf_queries. Qed.

(** X8. When the extractor finds no job details on the page that answers,
    the cycle ends in the content script: one error response goes back,
    the popup shows the could-not-find message, and no message to the
    background, no storage read and no request to the service happen. *)
Theorem extraction_failure_ends_cycle (w : World) (userSkills : list string)
    (doc : Document) :
  onJobsPage (tabs w) = true →
  page w = PageListens doc →
  outcome (extractJobDetails doc) = inr None →
  analyzeClick w userSkills =
    MkJs ([ClearError; TabsQuery; TabsSendMessage (activeTabId w)]
          ++ trace (extractJobDetails doc)
          ++ [SendResponse ContentScript (errorResponse couldNotFind);
              ShowError couldNotFind])
         (inr tt)
  ∧ List.filter isRelayEvent (trace (analyzeClick w userSkills)) = [].
Proof.
  intros Hguard Hpage Hext.
  assert (analyzeClick w userSkills =
          MkJs ([ClearError; TabsQuery; TabsSendMessage (activeTabId w)]
                ++ trace (extractJobDetails doc)
                ++ [SendResponse ContentScript (errorResponse couldNotFind);
                    ShowError couldNotFind])
               (inr tt)) as Heq.
  { rewrite (analyzeClick_listening w userSkills doc Hguard Hpage).
    rewrite (content_onMessage_failed w doc Hext). cbn [trace].
    destruct (extractJobDetails_queries doc) as (queries & result & Hq & Hall).
    rewrite Hq. cbn [trace].
    rewrite responsesOf_app, (queries_are_no_responses _ Hall).
    cbn. by rewrite <- app_assoc. }
  split; [done|]. rewrite Heq. cbn [trace].
  destruct (extractJobDetails_queries doc) as (queries & result & Hq & Hall).
  rewrite Hq. cbn [trace].
  rewrite !List.filter_app, (queries_are_no_relay _ Hall). reflexivity.
Qed.

Lemma extraction_failure_ends_cycle_witness :
  List.filter isRelayEvent
    (trace (analyzeClick
              {| tabs := [{| tabId := 1;
                             tabUrl := Some "https://www.linkedin.com/jobs/view/2" |}];
                 page := PageListens (pageWithContainer (Element "div" []));
                 background := BackgroundListens;
                 storage := Scenarios.pythonProfile;
                 fetchOutcome := FetchFailed "Failed to fetch" |}
              ["python"])) = [].
Proof.
  apply (extraction_failure_ends_cycle
           {| tabs := [{| tabId := 1;
                          tabUrl := Some "https://www.linkedin.com/jobs/view/2" |}];
              page := PageListens (pageWithContainer (Element "div" []));
              background := BackgroundListens;
              storage := Scenarios.pythonProfile;
              fetchOutcome := FetchFailed "Failed to fetch" |}
           ["python"] (pageWithContainer (Element "div" [])));
    reflexivity.
Defined.

Lemma background_onMessage_settled (w : World) (details : JobDetails) :
  Background.onMessage w "analyzeJob" details =
    MkJs [ StorageGet;
           Fetch {| requestDetails := details;
                    requestSkills := Background.storedOrEmpty (storage w) |};
           SendResponse Runtime.Background (settledResponse (fetchOutcome w)) ]
         (inr (Some true)).
Proof. apply background_onMessage_eq. Qed.

Lemma relayCallback_forwarded (r : Response) :
  relayCallback None (Some r) = MkJs [SendResponse ContentScript (forwarded r)] (inr tt).
Proof.
  unfold relayCallback, forwarded. by destruct (truthyText (error r)).
Qed.

Lemma background_events_response (request : AnalysisRequest) (r : Response) :
  head (responsesOf Runtime.Background
          [StorageGet; Fetch request; SendResponse Runtime.Background r]) = Some r.
Proof. reflexivity. Qed.

Lemma relay_events_response (details : JobDetails) (request : AnalysisRequest)
    (r r' : Response) :
  responsesOf ContentScript
    [ RuntimeSendMessage details; StorageGet; Fetch request;
      SendResponse Runtime.Background r; SendResponse ContentScript r' ] = [r'].
Proof. reflexivity. Qed.

(** A cycle that reaches a listening background: the full sequence. *)
Lemma cycle_relayed (w : World) (userSkills : list string) (doc : Document)
    (details : JobDetails) :
  onJobsPage (tabs w) = true →
  page w = PageListens doc →
  outcome (extractJobDetails doc) = inr (Some details) →
  background w = BackgroundListens →
  analyzeClick w userSkills =
    MkJs ([ClearError; TabsQuery; TabsSendMessage (activeTabId w)]
          ++ trace (extractJobDetails doc)
          ++ [ RuntimeSendMessage details;
               StorageGet;
               Fetch {| requestDetails := details;
                        requestSkills := Background.storedOrEmpty (storage w) |};
               SendResponse Runtime.Background (settledResponse (fetchOutcome w));
               SendResponse ContentScript (forwarded (settledResponse (fetchOutcome w))) ]
          ++ trace (onResponse userSkills None
                      (Some (forwarded (settledResponse (fetchOutcome w))))))
         (inr tt).
Proof.
  intros Hguard Hpage Hext Hbg.
  rewrite (analyzeClick_listening w userSkills doc Hguard Hpage).
  rewrite (content_onMessage_relayed w doc details Hext).
  unfold runtimeSendMessage. rewrite Hbg, background_onMessage_settled.
  cbn [trace]. rewrite background_events_response.
  rewrite relayCallback_forwarded, bind_value, bind_emit. cbn [trace outcome app].
  destruct (extractJobDetails_queries doc) as (queries & result & Hq & Hall).
  rewrite Hq. cbn [trace].
  rewrite responsesOf_app, (queries_are_no_responses _ Hall). cbn [app].
  rewrite relay_events_response. cbn [head].
  rewrite (proj1 (onResponse_feedback userSkills None _)).
  by rewrite <- !app_assoc.
Qed.

(** A cycle whose message to the background is not answered. *)
Lemma cycle_unanswered (w : World) (userSkills : list string) (doc : Document)
    (details : JobDetails) (message : string) :
  onJobsPage (tabs w) = true →
  page w = PageListens doc →
  outcome (extractJobDetails doc) = inr (Some details) →
  (background w = BackgroundSilent
   ∧ message = "Extension error: No response from background service."
   ∨ ∃ m, background w = BackgroundLastError m
          ∧ message = "Extension communication error: " +:+ m) →
  analyzeClick w userSkills =
    MkJs ([ClearError; TabsQuery; TabsSendMessage (activeTabId w)]
          ++ trace (extractJobDetails doc)
          ++ [ RuntimeSendMessage details;
               SendResponse ContentScript (errorResponse message);
               ShowError message ])
         (inr tt).
Proof.
  intros Hguard Hpage Hext Hbg.
  rewrite (analyzeClick_listening w userSkills doc Hguard Hpage).
  rewrite (content_onMessage_relayed w doc details Hext).
  unfold runtimeSendMessage.
  destruct (extractJobDetails_queries doc) as (queries & result & Hq & Hall).
  rewrite Hq. cbn [trace].
  destruct Hbg as [[-> ->] | (m & -> & ->)];
    rewrite bind_emit; unfold relayCallback; cbn [trace outcome];
    rewrite responsesOf_app, (queries_are_no_responses _ Hall);
    cbn; by rewrite <- !app_assoc.
Qed.

(** X9. When the runtime cannot deliver a message, the popup shows the
    runtime's own text behind a fixed prefix and nothing reaches the
    service: an unreachable page gives Error: and the text without any
    query of a document; an unreachable background gives Extension
    communication error: and the text; a background that answers nothing
    gives the no-response message. *)
Theorem runtime_errors_surface :
  (∀ (w : World) (userSkills : list string) (m : string),
     onJobsPage (tabs w) = true →
     page w = PageLastError m →
     analyzeClick w userSkills =
       MkJs [ClearError; TabsQuery; TabsSendMessage (activeTabId w);
             ShowError ("Error: " +:+ m)]
            (inr tt))
  ∧ (∀ (w : World) (userSkills : list string) (doc : Document)
       (details : JobDetails) (m : string),
       onJobsPage (tabs w) = true →
       page w = PageListens doc →
       outcome (extractJobDetails doc) = inr (Some details) →
       background w = BackgroundLastError m →
       analyzeClick w userSkills =
         MkJs ([ClearError; TabsQuery; TabsSendMessage (activeTabId w)]
               ++ trace (extractJobDetails doc)
               ++ [ RuntimeSendMessage details;
                    SendResponse ContentScript
                      (errorResponse ("Extension communication error: " +:+ m));
                    ShowError ("Extension communication error: " +:+ m) ])
              (inr tt))
  ∧ (∀ (w : World) (userSkills : list string) (doc : Document)
       (details : JobDetails),
       onJobsPage (tabs w) = true →
       page w = PageListens doc →
       outcome (extractJobDetails doc) = inr (Some details) →
       background w = BackgroundSilent →
       analyzeClick w userSkills =
         MkJs ([ClearError; TabsQuery; TabsSendMessage (activeTabId w)]
               ++ trace (extractJobDetails doc)
               ++ [ RuntimeSendMessage details;
                    SendResponse ContentScript
                      (errorResponse
                         "Extension error: No response from background service.");
                    ShowError "Extension error: No response from background service." ])
              (inr tt)).
Proof.
  split; [|split].
  - intros w userSkills m Hguard Hpage.
    unfold analyzeClick, tabsSendMessage, activeTabId. by rewrite Hguard, Hpage.
  - intros w userSkills doc details m Hguard Hpage Hext Hbg.
    apply (cycle_unanswered w userSkills doc details); try done. right. eauto.
  - intros w userSkills doc details Hguard Hpage Hext Hbg.
    apply (cycle_unanswered w userSkills doc details); try done. by left.
Qed.

Lemma runtime_errors_surface_witness :
  analyzeClick
    {| tabs := [{| tabId := 4; tabUrl := Some "https://www.linkedin.com/jobs/" |}];
       page := PageLastError "Could not establish connection.";
       background := BackgroundListens;
       storage := Scenarios.pythonProfile;
       fetchOutcome := FetchFailed "Failed to fetch" |}
    ["python"] =
    MkJs [ClearError; TabsQuery; TabsSendMessage 4;
          ShowError ("Error: " +:+ "Could not establish connection.")]
         (inr tt).
Proof.
  apply (proj1 runtime_errors_surface
           {| tabs := [{| tabId := 4; tabUrl := Some "https://www.linkedin.com/jobs/" |}];
              page := PageLastError "Could not establish connection.";
              background := BackgroundListens;
              storage := Scenarios.pythonProfile;
              fetchOutcome := FetchFailed "Failed to fetch" |}
           ["python"] "Could not establish connection."); reflexivity.
Defined.

(** X10. When the fetch fails or the body is not JSON, the message of the
    failure travels back through both hops unchanged and is what the popup
    shows, with no report; only an empty message is replaced, by the
    invalid-response-structure text. The request was posted once, with the
    extracted details and the stored skills. *)
Theorem transport_failure_surfaces (w : World) (userSkills : list string)
    (doc : Document) (details : JobDetails) (m : string) :
  onJobsPage (tabs w) = true →
  page w = PageListens doc →
  outcome (extractJobDetails doc) = inr (Some details) →
  background w = BackgroundListens →
  failureOf (fetchOutcome w) = Some m →
  analyzeClick w userSkills =
    MkJs ([ClearError; TabsQuery; TabsSendMessage (activeTabId w)]
          ++ trace (extractJobDetails doc)
          ++ [ RuntimeSendMessage details;
               StorageGet;
               Fetch {| requestDetails := details;
                        requestSkills := Background.storedOrEmpty (storage w) |};
               SendResponse Runtime.Background
                 {| success := Some false; data := None; error := Some m |};
               SendResponse ContentScript
                 (if nonEmpty m then errorResponse m
                  else {| success := Some false; data := None; error := Some m |});
               ShowError
                 (if nonEmpty m then m
                  else "Invalid response structure from background script.") ])
         (inr tt).
Proof.
  intros Hguard Hpage Hext Hbg Hfail.
  rewrite (cycle_relayed w userSkills doc details Hguard Hpage Hext Hbg).
  assert (settledResponse (fetchOutcome w) =
          {| success := Some false; data := None; error := Some m |}) as ->.
  { unfold failureOf, settledResponse in *.
    destruct (fetchOutcome w) as [m'|[st [v|m']]]; simpl in *; by simplify_eq. }
  unfold forwarded, onResponse, errorResponse. cbn [error truthyText].
  destruct (nonEmpty m) eqn:Hm; cbn [error data truthyText]; rewrite ?Hm; reflexivity.
Qed.

Lemma transport_failure_surfaces_witness :
  analyzeClick
    {| tabs := [{| tabId := 7; tabUrl := Some "https://www.linkedin.com/jobs/view/1" |}];
       page := PageListens Scenarios.jobPage;
       background := BackgroundListens;
       storage := Scenarios.pythonProfile;
       fetchOutcome := FetchFailed "Failed to fetch" |}
    ["python"] =
    MkJs ([ClearError; TabsQuery; TabsSendMessage 7]
          ++ trace (extractJobDetails Scenarios.jobPage)
          ++ [ RuntimeSendMessage
                 {| description := "Write Python and SQL"; company := "Acme";
                    title := "Job Position" |};
               StorageGet;
               Fetch {| requestDetails :=
                          {| description := "Write Python and SQL"; company := "Acme";
                             title := "Job Position" |};
                        requestSkills := ["python"] |};
               SendResponse Runtime.Background
                 {| success := Some false; data := None;
                    error := Some "Failed to fetch" |};
               SendResponse ContentScript (errorResponse "Failed to fetch");
               ShowError "Failed to fetch" ])
         (inr tt).
Proof.
  apply (transport_failure_surfaces
           {| tabs := [{| tabId := 7;
                          tabUrl := Some "https://www.linkedin.com/jobs/view/1" |}];
              page := PageListens Scenarios.jobPage;
              background := BackgroundListens;
              storage := Scenarios.pythonProfile;
              fetchOutcome := FetchFailed "Failed to fetch" |}
           ["python"] Scenarios.jobPage
           {| description := "Write Python and SQL"; company := "Acme";
              title := "Job Position" |}
           "Failed to fetch"); reflexivity.
Defined.



(** X12. A JSON body that is a falsy value, such as null, false, zero or
    the empty text, is relayed with success true by both hops and then
    refused by the popup: it shows the invalid-response-structure message
    and renders nothing. *)
Theorem falsy_body_refused (w : World) (userSkills : list string)
    (doc : Document) (details : JobDetails) (response : HttpResponse)
    (analysisData : Json) :
  onJobsPage (tabs w) = true →
  page w = PageListens doc →
  outcome (extractJobDetails doc) = inr (Some details) →
  background w = BackgroundListens →
  fetchOutcome w = FetchResponded response →
  body response = BodyJson analysisData →
  truthy (Some analysisData) = false →
  analyzeClick w userSkills =
    MkJs ([ClearError; TabsQuery; TabsSendMessage (activeTabId w)]
          ++ trace (extractJobDetails doc)
          ++ [ RuntimeSendMessage details;
               StorageGet;
               Fetch {| requestDetails := details;
                        requestSkills := Background.storedOrEmpty (storage w) |};
               SendResponse Runtime.Background
                 {| success := Some true; data := Some analysisData; error := None |};
               SendResponse ContentScript
                 {| success := Some true; data := Some analysisData; error := None |};
               ShowError "Invalid response structure from background script." ])
         (inr tt).
Proof.
  intros Hguard Hpage Hext Hbg Hfetch Hbody Hfalsy.
  rewrite (cycle_relayed w userSkills doc details Hguard Hpage Hext Hbg).
  assert (settledResponse (fetchOutcome w) =
          {| success := Some true; data := Some analysisData; error := None |}) as ->.
  { unfold settledResponse. by rewrite Hfetch, Hbody. }
  unfold forwarded, onResponse. cbn [error data truthyText]. by rewrite Hfalsy.
Qed.

Lemma falsy_body_refused_witness :
  analyzeClick
    {| tabs := [{| tabId := 7; tabUrl := Some "https://www.linkedin.com/jobs/view/1" |}];
       page := PageListens Scenarios.jobPage;
       background := BackgroundListens;
       storage := Scenarios.pythonProfile;
       fetchOutcome := FetchResponded {| status := 200; body := BodyJson JNull |} |}
    ["python"] =
    MkJs ([ClearError; TabsQuery; TabsSendMessage 7]
          ++ trace (extractJobDetails Scenarios.jobPage)
          ++ [ RuntimeSendMessage
                 {| description := "Write Python and SQL"; company := "Acme";
                    title := "Job Position" |};
               StorageGet;
               Fetch {| requestDetails :=
                          {| description := "Write Python and SQL"; company := "Acme";
                             title := "Job Position" |};
                        requestSkills := ["python"] |};
               SendResponse Runtime.Background
                 {| success := Some true; data := Some JNull; error := None |};
               SendResponse ContentScript
                 {| success := Some true; data := Some JNull; error := None |};
               ShowError "Invalid response structure from background script." ])
         (inr tt).
Proof.
  apply (falsy_body_refused
           {| tabs := [{| tabId := 7;
                          tabUrl := Some "https://www.linkedin.com/jobs/view/1" |}];
              page := PageListens Scenarios.jobPage;
              background := BackgroundListens;
              storage := Scenarios.pythonProfile;
              fetchOutcome := FetchResponded {| status := 200; body := BodyJson JNull |} |}
           ["python"] Scenarios.jobPage
           {| description := "Write Python and SQL"; company := "Acme";
              title := "Job Position" |}
           {| status := 200; body := BodyJson JNull |} JNull); reflexivity.
Defined.

(** X13. Every click on the analyze button ends without an exception and
    leaves the user with something to see: an error message or the match
    report. *)
Theorem every_click_gives_feedback (w : World) (userSkills : list string) :
  outcome (analyzeClick w userSkills) = inr tt
  ∧ ∃ e, e ∈ trace (analyzeClick w userSkills)
         ∧ (isShowError e = true ∨ isReportRender e = true).
Proof.
  destruct (onJobsPage (tabs w)) eqn:Hguard.
  - destruct (page w) as [doc|m] eqn:Hpage.
    + rewrite (analyzeClick_listening w userSkills doc Hguard Hpage).
      cbn [trace outcome].
      destruct (onResponse_feedback userSkills None
                  (head (responsesOf ContentScript
                           (trace (ContentScript.onMessage w doc "analyze")))))
        as [Hout (e & He & Hkind)].
      split; [done|]. exists e. split; [|done].
      apply elem_of_app. right. apply elem_of_app. by right.
    + unfold analyzeClick, tabsSendMessage. rewrite Hguard, Hpage.
      unfold onResponse, showError.
      split; [done|]. exists (ShowError ("Error: " +:+ m)). split; [|by left].
      cbn. do 3 right. by left.
  - rewrite (analyzeClick_off_jobs_page w userSkills Hguard).
    split; [done|].
    exists (ShowError "Please navigate to a LinkedIn job posting first.").
    split; [|by left]. cbn. do 2 right. by left.
Qed.

(** X14. The request to the service carries the stored skills, not the list
    in the popup: after a removal that was not saved, the removed skill is
    still sent to the service, while the popup, which categorises against
    its list in memory, can no longer report it as matching. *)
Theorem unsaved_removal_still_sent (st : PopupState) (skillToRemove : string)
    (w : World) (details : JobDetails) (names : list string) :
  reachable st →
  skillToRemove ∈ userSkills st →
  storage w = store (removeSkill skillToRemove st) →
  (∃ request,
     requestsOf (trace (Background.onMessage w "analyzeJob" details)) = [request]
     ∧ requestDetails request = details
     ∧ skillToRemove ∈ requestSkills request)
  ∧ skillToRemove ∉
      MatchEngine.reportMatching
        (MatchEngine.computeMatch
           (userSkills (removeSkill skillToRemove st)) names).
Proof.
  intros Hreach Hin Hstorage. split.
  - rewrite background_onMessage_settled. eexists. split; [reflexivity|].
    split; [done|]. cbn [requestSkills]. rewrite Hstorage.
    destruct (ProfileFacts.reachable_consistent _ Hreach) as (_ & _ & Hsub).
    destruct (Hsub _ Hin) as (stored & Hst & Hstored).
    unfold Background.storedOrEmpty. cbn [removeSkill store]. by rewrite Hst.
  - intros Hmatch.
    pose proof (MatchEngineFacts.matchingSkills_filter
                  (userSkills (removeSkill skillToRemove st))
                  (MatchEngine.jobSkillsOf names)) as Hfilter.
    unfold MatchEngine.computeMatch in Hmatch. cbn [MatchEngine.reportMatching] in Hmatch.
    rewrite Hfilter in Hmatch. apply list_elem_of_filter in Hmatch as [_ Hmem].
    rewrite ProfileFacts.removeSkill_filter in Hmem.
    by apply list_elem_of_filter in Hmem as [? _].
Qed.

Lemma unsaved_removal_still_sent_witness :
  ∃ request,
    requestsOf
      (trace (Background.onMessage
                {| tabs := []; page := PageListens Scenarios.jobPage;
                   background := BackgroundListens;
                   storage := store (removeSkill "sql" (addSkills "Python, SQL" initial));
                   fetchOutcome := FetchFailed "Failed to fetch" |}
                "analyzeJob"
                {| description := "d"; company := "c"; title := "t" |})) = [request]
    ∧ requestDetails request = {| description := "d"; company := "c"; title := "t" |}
    ∧ "sql" ∈ requestSkills request.
Proof.
  apply (unsaved_removal_still_sent (addSkills "Python, SQL" initial) "sql"
           {| tabs := []; page := PageListens Scenarios.jobPage;
              background := BackgroundListens;
              storage := store (removeSkill "sql" (addSkills "Python, SQL" initial));
              fetchOutcome := FetchFailed "Failed to fetch" |}
           {| description := "d"; company := "c"; title := "t" |} []).
  - apply (reachable_step (AddSkills "Python, SQL") initial), reachable_initial.
  - vm_compute. right. left.
  - reflexivity.
Defined.

End CycleFacts.

(** ** More on the categorisation *)

Module CategorisationFacts.

Import MatchEngine MatchEngineFacts.

Lemma filter_sublist_mono {A} (P : A → Prop) `{!∀ x, Decision (P x)}
    (l1 l2 : list A) :
  l1 `sublist_of` l2 → filter P l1 `sublist_of` filter P l2.
Proof.
  induction 1 as [|x l1 l2 _ IH|x l1 l2 _ IH]; [constructor| |].
  - rewrite !filter_cons. destruct (decide (P x)); [by constructor | done].
  - rewrite filter_cons. destruct (decide (P x)); [by constructor | done].
Qed.

Lemma filter_sublist_weaken {A} (P Q : A → Prop)
    `{!∀ x, Decision (P x), !∀ x, Decision (Q x)} (l : list A) :
  (∀ x, P x → Q x) → filter P l `sublist_of` filter Q l.
Proof.
  intros HPQ. induction l as [|x l IH]; [constructor|].
  rewrite !filter_cons.
  destruct (decide (P x)) as [HP|HP], (decide (Q x)) as [HQ|HQ].
  - by constructor.
  - by apply HPQ in HP.
  - by constructor.
  - done.
Qed.

Lemma reportMatching_filter (userSkills skills : list string) :
  reportMatching (computeMatch userSkills skills) =
    filter (λ u, Exists (λ j, is_substring (toLowerCase u) j) (toLowerCase <$> skills))
           userSkills.
Proof. apply matchingSkills_filter. Qed.

Lemma reportMissing_filter (userSkills skills : list string) :
  reportMissing (computeMatch userSkills skills) =
    filter (λ j, ¬ Exists (λ u, is_substring (toLowerCase u) j) userSkills)
           (toLowerCase <$> skills).
Proof.
  unfold computeMatch, jobSkillsOf. cbn [reportMissing].
  rewrite missingSkills_filter. apply list_filter_iff_in. intros j Hj.
  apply list_elem_of_fmap in Hj as (j0 & -> & _). by rewrite toLowerCase_idemp.
Qed.

(** X15. A job skill is reported missing exactly when none of the skills
    reported as matching occurs in it: the two lists of a report cover the
    job skills without overlap. *)
Theorem missing_iff_uncovered (userSkills skills : list string) (j : string) :
  j ∈ toLowerCase <$> skills →
  j ∈ reportMissing (computeMatch userSkills skills) ↔
  ¬ ∃ u, u ∈ reportMatching (computeMatch userSkills skills)
         ∧ is_substring (toLowerCase u) j.
Proof.
  intros Hj. rewrite reportMissing_filter, reportMatching_filter.
  rewrite list_elem_of_filter. split.
  - intros [Hnone _] (u & Hu & Hsub). apply Hnone.
    apply list_elem_of_filter in Hu as [_ Hu].
    apply Exists_exists. eauto.
  - intros Hnone. split; [|done]. intros Hsome.
    apply Exists_exists in Hsome as (u & Hu & Hsub). apply Hnone.
    exists u. split; [|done]. apply list_elem_of_filter. split; [|done].
    apply Exists_exists. eauto.
Qed.

Lemma missing_iff_uncovered_witness :
  "excel" ∈ reportMissing
              (computeMatch ["python"; "sql"] ["Python Developer"; "SQL Expert"; "Excel"]) ↔
  ¬ ∃ u, u ∈ reportMatching
               (computeMatch ["python"; "sql"] ["Python Developer"; "SQL Expert"; "Excel"])
         ∧ is_substring (toLowerCase u) "excel".
Proof.
  apply (missing_iff_uncovered ["python"; "sql"]
           ["Python Developer"; "SQL Expert"; "Excel"] "excel").
  vm_compute. do 2 right. left.
Defined.

(** X16. A larger profile never matches less and never misses more: when
    one profile is contained in another, in order, its matching skills
    are among those of the other, in order, and the missing skills of the
    other are among its missing skills. *)
Theorem larger_profile_matches_more (userSkills userSkills' skills : list string) :
  userSkills `sublist_of` userSkills' →
  reportMatching (computeMatch userSkills skills)
    `sublist_of` reportMatching (computeMatch userSkills' skills)
  ∧ reportMissing (computeMatch userSkills' skills)
      `sublist_of` reportMissing (computeMatch userSkills skills).
Proof.
  intros Hsub. rewrite !reportMatching_filter, !reportMissing_filter. split.
  - by apply filter_sublist_mono.
  - apply filter_sublist_weaken. intros j Hnone Hsome. apply Hnone.
    apply Exists_exists in Hsome as (u & Hu & Hin). apply Exists_exists.
    exists u. split; [|done]. by eapply sublist_subseteq.
Qed.

Lemma larger_profile_matches_more_witness :
  reportMatching (computeMatch ["python"] ["Python Developer"; "SQL Expert"])
    `sublist_of` reportMatching (computeMatch ["python"; "sql"]
                                   ["Python Developer"; "SQL Expert"])
  ∧ reportMissing (computeMatch ["python"; "sql"] ["Python Developer"; "SQL Expert"])
      `sublist_of` reportMissing (computeMatch ["python"]
                                    ["Python Developer"; "SQL Expert"]).
Proof.
  apply (larger_profile_matches_more ["python"] ["python"; "sql"]
           ["Python Developer"; "SQL Expert"]).
  apply (sublist_inserts_r ["sql"] ["python"] ["python"]). reflexivity.
Defined.

(** X17. The categorisation does not depend on the case of either side:
    lower-casing the job skills changes nothing, lower-casing the profile
    gives the same missing skills and the lower-cased matching skills; a
    result without job skills gives an empty report for every profile. *)
Theorem categorisation_ignores_case (userSkills skills : list string) :
  computeMatch userSkills (toLowerCase <$> skills) = computeMatch userSkills skills
  ∧ reportMissing (computeMatch (toLowerCase <$> userSkills) skills) =
      reportMissing (computeMatch userSkills skills)
  ∧ reportMatching (computeMatch (toLowerCase <$> userSkills) skills) =
      toLowerCase <$> reportMatching (computeMatch userSkills skills)
  ∧ computeMatch userSkills [] = {| reportMatching := []; reportMissing := [] |}.
Proof.
  split; [|split; [|split]].
  - unfold computeMatch, jobSkillsOf.
    replace (map toLowerCase (toLowerCase <$> skills)) with (map toLowerCase skills);
      [done|].
    induction skills as [|j skills IH]; [done|].
    rewrite fmap_cons. simpl. f_equal; [by rewrite toLowerCase_idemp | exact IH].
  - rewrite !reportMissing_filter. apply list_filter_iff. intros j.
    apply not_iff_compat. rewrite !Exists_exists. split.
    + intros (u & Hu & Hsub). apply list_elem_of_fmap in Hu as (u0 & -> & Hu0).
      rewrite toLowerCase_idemp in Hsub. eauto.
    + intros (u & Hu & Hsub). exists (toLowerCase u).
      rewrite toLowerCase_idemp. split; [|done].
      apply list_elem_of_fmap. eauto.
  - rewrite !reportMatching_filter.
    induction userSkills as [|u userSkills IH]; [done|].
    rewrite fmap_cons, !filter_cons, toLowerCase_idemp.
    destruct (decide _); by rewrite ?fmap_cons, IH.
  - unfold computeMatch, matchingSkills, missingSkills. simpl. f_equal.
    induction userSkills as [|u userSkills IH]; [done|]. by simpl.
Qed.

End CategorisationFacts.

(** ** More on the stored profile *)

Module ProfileMoreFacts.

Import Popup PopupUi ProfileFacts.

Lemma firstOccurrences_nil (seen newSkills : list string) :
  (∀ e, e ∈ newSkills → e ∈ seen) → firstOccurrences seen newSkills = [].
Proof.
  intros Hall. destruct (firstOccurrences seen newSkills) as [|e rest] eqn:E; [done|].
  assert (e ∈ firstOccurrences seen newSkills) as He by (rewrite E; by left).
  apply firstOccurrences_elem_of in He as [He Hout]. by apply Hall in He.
Qed.

Lemma pushUnique_present (userSkills newSkills : list string) :
  (∀ e, e ∈ newSkills → e ∈ userSkills) → pushUnique userSkills newSkills = userSkills.
Proof.
  intros Hall. rewrite pushUnique_firstOccurrences, firstOccurrences_nil by done.
  apply app_nil_r.
Qed.

Lemma pushUnique_covers (userSkills newSkills : list string) (e : string) :
  e ∈ newSkills → e ∈ pushUnique userSkills newSkills.
Proof.
  intros He. rewrite pushUnique_firstOccurrences, elem_of_app.
  destruct (decide (e ∈ userSkills)) as [Hin|Hout]; [by left|].
  right. by apply firstOccurrences_elem_of.
Qed.

(** X18. Adding the same text twice is adding it once: the second add finds
    every entry present and leaves memory and store as the first left
    them. *)
Theorem addSkills_idempotent (inputValue : string) (st : PopupState) :
  addSkills inputValue (addSkills inputValue st) = addSkills inputValue st.
Proof.
  unfold addSkills.
  destruct (nonEmpty (toLowerCase (trim inputValue))) eqn:Htext; cbn [negb].
  - cbn [saveUserSkills userSkills store].
    by rewrite (pushUnique_present (pushUnique _ _)) by apply pushUnique_covers.
  - done.
Qed.

Lemma pushCounting_spec (userSkills newSkills : list string) (count : Z) :
  fold_left
    (fun '(acc, addedCount) skill =>
       if arrayIncludes acc skill then (acc, addedCount)
       else (acc ++ [skill], addedCount + 1))
    newSkills (userSkills, count) =
  (pushUnique userSkills newSkills,
   count + (Z.of_nat (length (pushUnique userSkills newSkills))
            - Z.of_nat (length userSkills))).
Proof.
  unfold pushUnique. revert userSkills count.
  induction newSkills as [|skill rest IH]; intros userSkills count; simpl.
  - f_equal. lia.
  - destruct (arrayIncludes userSkills skill); rewrite IH; [done|].
    f_equal. rewrite length_app. simpl. lia.
Qed.

Lemma pushUnique_length (userSkills newSkills : list string) :
  (length userSkills ≤ length (pushUnique userSkills newSkills))%nat.
Proof. rewrite pushUnique_firstOccurrences, length_app. lia. Qed.

(** X19. The hint reports the growth of the list: the counter of the add
    loop equals the number of skills by which the list in memory grew, and
    the hint is written, with that number, exactly when the list grew;
    one new skill is announced in the singular, more in the plural. *)
Theorem hint_counts_growth :
  (∀ (st : PopupState) (inputValue : string),
     0 ≤ Z.of_nat (length (userSkills (addSkills inputValue st)))
         - Z.of_nat (length (userSkills st))
     ∧ addSkillsHint inputValue st =
         if 0 <? Z.of_nat (length (userSkills (addSkills inputValue st)))
                 - Z.of_nat (length (userSkills st))
         then Some (addedHint
                      (Z.of_nat (length (userSkills (addSkills inputValue st)))
                       - Z.of_nat (length (userSkills st))))
         else None)
  ∧ addedHint 1 = "Added 1 new skill!"
  ∧ addedHint 12 = "Added 12 new skills!".
Proof.
  split; [|by split].
  intros st inputValue. unfold addSkillsHint, addSkills, pushCounting.
  destruct (nonEmpty (toLowerCase (trim inputValue))); cbn [negb].
  - cbn [saveUserSkills userSkills]. rewrite pushCounting_spec. cbn [snd].
    pose proof (pushUnique_length (userSkills st)
                  (newSkillsOf (toLowerCase (trim inputValue)))) as Hlen.
    rewrite Z.add_0_l. split; [lia | done].
  - rewrite Z.sub_diag. by split.
Qed.

(** X20. A text without any entry, such as commas and blanks only, adds
    nothing and writes no hint; when the text is not blank the unchanged
    list is nevertheless saved and the profile marked as set up; a blank
    text changes nothing at all. *)
Theorem input_without_entries (inputValue : string) (st : PopupState) :
  entriesOf inputValue = [] →
  userSkills (addSkills inputValue st) = userSkills st
  ∧ addSkillsHint inputValue st = None
  ∧ (nonEmpty (toLowerCase (trim inputValue)) = true →
     store (addSkills inputValue st) =
       {| storedUserSkills := Some (userSkills st); profileSetup := true |})
  ∧ (nonEmpty (toLowerCase (trim inputValue)) = false →
     addSkills inputValue st = st).
Proof.
  unfold entriesOf. intros Hnone.
  unfold addSkills, addSkillsHint, pushCounting. rewrite Hnone.
  destruct (nonEmpty (toLowerCase (trim inputValue))); cbn; by repeat split.
Qed.

Lemma input_without_entries_witness :
  userSkills (addSkills ", ," initial) = userSkills initial
  ∧ addSkillsHint ", ," initial = None
  ∧ (nonEmpty (toLowerCase (trim ", ,")) = true →
     store (addSkills ", ," initial) =
       {| storedUserSkills := Some (userSkills initial); profileSetup := true |})
  ∧ (nonEmpty (toLowerCase (trim ", ,")) = false →
     addSkills ", ," initial = initial).
Proof. apply (input_without_entries ", ," initial). reflexivity. Defined.

Lemma filter_absent (skillToRemove : string) (skills : list string) :
  skillToRemove ∉ skills →
  List.filter (fun s => negb (String.eqb s skillToRemove)) skills = skills.
Proof.
  induction skills as [|s skills IH]; [done|].
  intros Hout. apply not_elem_of_cons in Hout as [Hne Hout]. simpl.
  rewrite (proj2 (String.eqb_neq s skillToRemove)) by done. simpl. by rewrite IH.
Qed.

Lemma filter_present_length (skillToRemove : string) (skills : list string) :
  NoDup skills → skillToRemove ∈ skills →
  S (length (List.filter (fun s => negb (String.eqb s skillToRemove)) skills)) =
    length skills.
Proof.
  induction 1 as [|s skills Hs Hnodup IH]; intros Hin.
  - by apply elem_of_nil in Hin.
  - simpl. destruct (String.eqb s skillToRemove) eqn:E; simpl.
    + apply String.eqb_eq in E. subst s. by rewrite filter_absent.
    + f_equal. apply IH. apply elem_of_cons in Hin as [->|Hin]; [|done].
      by rewrite String.eqb_refl in E.
Qed.

(** X21. Removing takes out the named skill and nothing else, keeping the
    order of the rest; removing a skill that is not in the list changes
    nothing; removing twice is removing once; removals commute; and in a
    reachable profile removing a present skill shortens the list by
    exactly one. *)
Theorem removeSkill_effect :
  (∀ (s : string) (st : PopupState),
     userSkills (removeSkill s st) `sublist_of` userSkills st
     ∧ ∀ x, x ∈ userSkills (removeSkill s st) ↔ x ∈ userSkills st ∧ x ≠ s)
  ∧ (∀ (s : string) (st : PopupState),
       s ∉ userSkills st → removeSkill s st = st)
  ∧ (∀ (s : string) (st : PopupState),
       removeSkill s (removeSkill s st) = removeSkill s st)
  ∧ (∀ (a b : string) (st : PopupState),
       removeSkill a (removeSkill b st) = removeSkill b (removeSkill a st))
  ∧ (∀ (s : string) (st : PopupState),
       reachable st → s ∈ userSkills st →
       S (length (userSkills (removeSkill s st))) = length (userSkills st)).
Proof.
  split; [|split; [|split; [|split]]].
  - intros s st. rewrite removeSkill_filter. split; [apply sublist_filter|].
    intros x. rewrite list_elem_of_filter. tauto.
  - intros s [skills stored] Hout. unfold removeSkill. cbn in *.
    by rewrite filter_absent.
  - intros s st. unfold removeSkill. cbn [userSkills store]. f_equal.
    apply filter_absent. intros Hin.
    apply list_elem_of_In, filter_In in Hin as [_ Hin].
    by rewrite String.eqb_refl in Hin.
  - intros a b st. unfold removeSkill. cbn [userSkills store]. f_equal.
    induction (userSkills st) as [|s skills IH]; [done|]. simpl.
    destruct (String.eqb s a) eqn:Ea, (String.eqb s b) eqn:Eb; simpl;
      rewrite ?Ea, ?Eb; simpl; by rewrite IH.
  - intros s st Hreach Hin.
    destruct (reachable_consistent _ Hreach) as ([Hnodup _] & _).
    by apply filter_present_length.
Qed.

Lemma removeSkill_effect_witness :
  S (length (userSkills (removeSkill "sql" (addSkills "Python, SQL" initial)))) =
    length (userSkills (addSkills "Python, SQL" initial)).
Proof.
  apply (proj2 (proj2 (proj2 (proj2 removeSkill_effect)))
           "sql" (addSkills "Python, SQL" initial)).
  - apply (reachable_step (AddSkills "Python, SQL") initial), reachable_initial.
  - vm_compute. right. left.
Defined.

(** X22. What is saved is what the next popup loads: after a click on save,
    and after any add of a text that is not blank, reopening the popup
    gives back the same state; reopening twice is reopening once. A
    removal becomes durable with either of them: once the profile is
    saved, or a text without the removed skill is added, the skill is no
    longer loaded. *)
Theorem saved_profile_round_trip :
  (∀ st : PopupState,
     openPopup (saveProfile st) = saveProfile st
     ∧ userSkills (saveProfile st) = userSkills st
     ∧ openPopup (openPopup st) = openPopup st)
  ∧ (∀ (st : PopupState) (inputValue : string),
       nonEmpty (toLowerCase (trim inputValue)) = true →
       openPopup (addSkills inputValue st) = addSkills inputValue st)
  ∧ (∀ (s : string) (st : PopupState),
       s ∉ userSkills (openPopup (saveProfile (removeSkill s st))))
  ∧ (∀ (s : string) (st : PopupState) (inputValue : string),
       nonEmpty (toLowerCase (trim inputValue)) = true →
       s ∉ entriesOf inputValue →
       s ∉ userSkills (openPopup (addSkills inputValue (removeSkill s st)))).
Proof.
  split; [|split; [|split]].
  - intros st. by repeat split.
  - intros st inputValue Htext. unfold addSkills. by rewrite Htext.
  - intros s st. cbn. intros Hin.
    apply list_elem_of_In, filter_In in Hin as [_ Hin].
    by rewrite String.eqb_refl in Hin.
  - intros s st inputValue Htext Hout.
    assert (openPopup (addSkills inputValue (removeSkill s st)) =
            addSkills inputValue (removeSkill s st)) as ->.
    { unfold addSkills. by rewrite Htext. }
    rewrite addSkills_userSkills, elem_of_app, firstOccurrences_elem_of.
    intros [Hin | [Hin _]]; [|done].
    rewrite removeSkill_filter in Hin. by apply list_elem_of_filter in Hin as [? _].
Qed.

Lemma saved_profile_round_trip_witness :
  openPopup (addSkills "Go" initial) = addSkills "Go" initial.
Proof.
  apply (proj1 (proj2 saved_profile_round_trip) initial "Go"). reflexivity.
Defined.

(** X23. The two keys of the persisted profile are always written together:
    in every reachable state the setup flag is set exactly when a skill
    list is stored, so the popup opens on the profile setup exactly as
    long as nothing was ever saved, and on the analysis section
    afterwards, also when the only save was the one an add performs. *)
Theorem setup_flag_tracks_store (st : PopupState) :
  reachable st →
  (profileSetup (store st) = true ↔ is_Some (storedUserSkills (store st)))
  ∧ sectionOnOpen (store st) =
      match storedUserSkills (store st) with
      | Some _ => "analysis-section"
      | None => "profile-setup"
      end.
Proof.
  intros Hreach.
  assert (profileSetup (store st) = true ↔ is_Some (storedUserSkills (store st)))
    as Hflag.
  { induction Hreach as [|a st _ IH].
    - cbn. split; [done | by intros [? ?]].
    - destruct a as [inputValue|s| |]; cbn [step].
      + unfold addSkills. destruct (nonEmpty _); cbn; [|exact IH].
        split; [by eexists | done].
      + exact IH.
      + cbn. split; [by eexists | done].
      + exact IH. }
  split; [done|]. unfold sectionOnOpen.
  destruct (storedUserSkills (store st)) as [skills|].
  - by rewrite (proj2 Hflag) by by eexists.
  - destruct (profileSetup (store st)); [|done].
    by destruct (proj1 Hflag eq_refl).
Qed.

Lemma setup_flag_tracks_store_witness :
  (profileSetup (store (addSkills "Go" initial)) = true
   ↔ is_Some (storedUserSkills (store (addSkills "Go" initial))))
  ∧ sectionOnOpen (store (addSkills "Go" initial)) =
      match storedUserSkills (store (addSkills "Go" initial)) with
      | Some _ => "analysis-section"
      | None => "profile-setup"
      end.
Proof.
  apply (setup_flag_tracks_store (addSkills "Go" initial)).
  apply (reachable_step (AddSkills "Go") initial), reachable_initial.
Defined.

Lemma lacksChar_split (sep : ascii) (s : string) :
  Forall (λ p, lacksChar sep p = true) (split sep s).
Proof.
  induction s as [|c s IH]; [by repeat constructor|]. simpl.
  destruct (Ascii.eqb c sep) eqn:E; [by constructor|].
  destruct (split sep s) as [|p ps]; [by repeat constructor; simpl; rewrite E|].
  apply Forall_cons in IH as [Hp Hps].
  constructor; [|done]. simpl. by rewrite E, Hp.
Qed.

Lemma lacksChar_trimStart (c : ascii) (s : string) :
  lacksChar c s = true → lacksChar c (trimStart s) = true.
Proof.
  induction s as [|d s IH]; [done|]. simpl.
  destruct (is_white d); [|done]. intros [_ Hs]%andb_true_iff. by apply IH.
Qed.

Lemma lacksChar_trimEnd (c : ascii) (s : string) :
  lacksChar c s = true → lacksChar c (trimEnd s) = true.
Proof.
  induction s as [|d s IH]; [done|]. simpl.
  intros [Hd Hs]%andb_true_iff. specialize (IH Hs).
  destruct (trimEnd s) as [|e t].
  - destruct (is_white d); [done|]. simpl. by rewrite Hd.
  - change (lacksChar c (String d (String e t))) with
      (negb (Ascii.eqb d c) && lacksChar c (String e t)).
    by rewrite Hd, IH.
Qed.

Lemma entriesOf_wellFormed (inputValue : string) :
  Forall wellFormedSkill (entriesOf inputValue).
Proof.
  apply Forall_forall. intros e He.
  pose proof (entriesOf_shape inputValue) as Hshape.
  rewrite Forall_forall in Hshape. destruct (Hshape e He) as (_ & Htrim & Hne).
  split; [done|]. split; [done|].
  unfold entriesOf, newSkillsOf in He.
  apply list_elem_of_In, filter_In in He as [He _].
  apply in_map_iff in He as (piece & <- & Hpiece).
  apply lacksChar_trimEnd, lacksChar_trimStart.
  pose proof (lacksChar_split "," (toLowerCase (trim inputValue))) as Hall.
  rewrite Forall_forall in Hall. by apply Hall, list_elem_of_In.
Qed.

(** X24. Every skill of a reachable profile, in memory and in the store, is
    not empty, is trimmed and holds no comma: no sequence of adds,
    removes, saves and reopenings lets a blank or a separator into the
    list. *)
Theorem stored_skills_well_formed (st : PopupState) :
  reachable st →
  Forall wellFormedSkill (userSkills st)
  ∧ ∀ stored, storedUserSkills (store st) = Some stored →
              Forall wellFormedSkill stored.
Proof.
  induction 1 as [|a st _ [IHmem IHstored]].
  - split; [constructor | done].
  - destruct a as [inputValue|s| |]; cbn [step].
    + assert (Forall wellFormedSkill (userSkills (addSkills inputValue st))) as Hnew.
      { rewrite addSkills_userSkills. apply Forall_app. split; [done|].
        pose proof (entriesOf_wellFormed inputValue) as Hall.
        rewrite Forall_forall in Hall. apply Forall_forall. intros e He.
        apply Hall. by apply firstOccurrences_elem_of in He as [? _]. }
      split; [done|]. revert Hnew. unfold addSkills.
      destruct (nonEmpty _); cbn; [|done]. by intros Hnew stored [= <-].
    + split; [|done]. rewrite removeSkill_filter.
      rewrite Forall_forall in IHmem. apply Forall_forall. intros x Hx.
      apply IHmem. by apply list_elem_of_filter in Hx as [_ ?].
    + split; [done|]. cbn. by intros stored [= <-].
    + split; [|done]. unfold openPopup. cbn.
      destruct (storedUserSkills (store st)) as [stored|]; [by apply IHstored|].
      constructor.
Qed.

Lemma stored_skills_well_formed_witness :
  Forall wellFormedSkill (userSkills (addSkills " Go ,, rust " initial))
  ∧ ∀ stored, storedUserSkills (store (addSkills " Go ,, rust " initial)) = Some stored →
              Forall wellFormedSkill stored.
Proof.
  apply (stored_skills_well_formed (addSkills " Go ,, rust " initial)).
  apply (reachable_step (AddSkills " Go ,, rust ") initial), reachable_initial.
Defined.

End ProfileMoreFacts.
